(** * telebot: addressing model and update envelope (types.go)

    A shallow embedding of [types.go]: the [Recipient] capability with its
    two implementations ([User] and [Chat]), the [Update] envelope, and the
    wire format given by the [json] struct tags.  Go strings are byte
    strings ([String.string]); Go integers are [Z] with the wrap-around of
    the conversions written out. *)

From Stdlib Require Import ZArith String Ascii List Bool Lia.
From Stdlib Require Import DecimalString DecimalN DecimalZ DecimalPos DecimalFacts.
Import ListNotations.

#[local] Open Scope string_scope.
#[local] Open Scope Z_scope.
#[local] Set Warnings "-register-all".

(* ================================================================== *)
(** * Part I: definitions *)
(* ================================================================== *)

(** ** Machine integers *)

Definition uint64 (z : Z) : Z := z mod 2 ^ 64.

Definition minInt64 : Z := - 2 ^ 63.
Definition maxInt64 : Z := 2 ^ 63 - 1.

Definition in_int64 (z : Z) : Prop := minInt64 <= z <= maxInt64.

Definition in_int64b (z : Z) : bool := (minInt64 <=? z) && (z <=? maxInt64).

(** ** Byte strings *)

(** [s[i]]; the accesses below are all in range, where Go would panic
    otherwise. *)
Definition byteAt (s : string) (i : Z) : ascii :=
  match String.get (Z.to_nat i) s with
  | Some c => c
  | None => Ascii.zero
  end.

Definition byte (c : ascii) : Z := Z.of_N (N_of_ascii c).

Definition ascii_of_byte (b : Z) : ascii := ascii_of_N (Z.to_N b).

(** [s[i:]] *)
Fixpoint drop (i : nat) (s : string) : string :=
  match i, s with
  | S i', String _ s' => drop i' s'
  | _, _ => s
  end.

(** [s[lo:hi]] *)
Definition slice (s : string) (lo hi : Z) : string :=
  String.substring (Z.to_nat lo) (Z.to_nat (hi - lo)) s.

(** ** strconv: the integer formatting used by [Destination] *)

Module strconv.

Definition nSmalls : Z := 100.

Definition smallsString : string :=
  "00010203040506070809" ++
  "10111213141516171819" ++
  "20212223242526272829" ++
  "30313233343536373839" ++
  "40414243444546474849" ++
  "50515253545556575859" ++
  "60616263646566676869" ++
  "70717273747576777879" ++
  "80818283848586878889" ++
  "90919293949596979899".

Definition digits : string := "0123456789abcdefghijklmnopqrstuvwxyz".

(** [small] returns the string for an [i] with [0 <= i < nSmalls]. *)
Definition small (i : Z) : string :=
  if i <? 10 then slice digits i (i + 1)
  else slice smallsString (i * 2) (i * 2 + 2).

(** The loop [for us >= 100] of [formatBits], two digits per round.  The
    buffer [a] is filled from its end; [a] below is the filled part
    [a[i:]].  Every round divides [us] by 100, so [fuel] rounds are enough
    for [us < 100 ^ fuel]. *)
Fixpoint formatLoop100 (fuel : nat) (us : Z) (a : string) : Z * string :=
  match fuel with
  | O => (us, a)
  | S fuel' =>
      if 100 <=? us then
        let is_ := us mod 100 * 2 in
        formatLoop100 fuel' (us / 100)
          (String (byteAt smallsString is_)
             (String (byteAt smallsString (is_ + 1)) a))
      else (us, a)
  end.

(** The general loop [for u >= b] of [formatBits], one digit per round. *)
Fixpoint formatLoopBase (fuel : nat) (b u : Z) (a : string) : Z * string :=
  match fuel with
  | O => (u, a)
  | S fuel' =>
      if b <=? u then
        let q := u / b in
        formatLoopBase fuel' b q (String (byteAt digits (u - q * b)) a)
      else (u, a)
  end.

(** The end of [formatBits] in base 10: the last one or two digits, [us]
    being below 100 after the loop. *)
Definition formatTail (us : Z) (a : string) : string :=
  let is_ := us * 2 in
  let a := String (byteAt smallsString (is_ + 1)) a in
  if 10 <=? us then String (byteAt smallsString is_) a else a.

(** [formatBits] computes the string representation of [u] in the given
    base; if [neg] is set, [u] is treated as a negative int64 value.  (On a
    64-bit host; base 10 takes two digits per round, the other bases one,
    which is also what the shifts of the bases that are powers of two
    compute.) *)
Definition formatBits (u : Z) (base : Z) (neg : bool) : string :=
  let u := if neg then uint64 (- u) else u in
  let a :=
    if base =? 10 then
      let '(us, a) := formatLoop100 10 u "" in
      formatTail us a
    else
      let '(u', a) := formatLoopBase 64 base u "" in
      String (byteAt digits u') a in
  if neg then String "-" a else a.

(** [FormatInt] returns the string representation of [i] in the given
    base, for [2 <= base <= 36]. *)
Definition FormatInt (i : Z) (base : Z) : string :=
  if (0 <=? i) && (i <? nSmalls) && (base =? 10) then small i
  else formatBits (uint64 i) base (i <? 0).

(** [Itoa] is [FormatInt(int64(i), 10)]. *)
Definition Itoa (i : Z) : string := FormatInt i 10.

(** [ParseUint(s, 10, 64)]; [None] stands for a returned error (syntax or
    range). *)
Definition maxUint64 : Z := 2 ^ 64 - 1.

Fixpoint parseUintLoop (s : string) (n : Z) : option Z :=
  match s with
  | EmptyString => Some n
  | String c s' =>
      let c := byte c in
      if (48 <=? c) && (c <=? 57) then
        let d := c - 48 in
        let cutoff := maxUint64 / 10 + 1 in
        if cutoff <=? n then None
        else
          let n := uint64 (n * 10) in
          let n1 := uint64 (n + d) in
          if (n1 <? n) || (maxUint64 <? n1) then None
          else parseUintLoop s' n1
      else None
  end.

Definition ParseUint (s : string) : option Z :=
  match s with
  | EmptyString => None
  | _ => parseUintLoop s 0
  end.

(** [ParseInt(s, 10, 64)] *)
Definition ParseInt (s : string) : option Z :=
  match s with
  | EmptyString => None
  | String c0 s' =>
      let neg := (byte c0 =? 45) in
      let s := if (byte c0 =? 43) || neg then s' else s in
      match ParseUint s with
      | None => None
      | Some un =>
          let cutoff := 2 ^ 63 in
          if negb neg && (cutoff <=? un) then None
          else if neg && (cutoff <? un) then None
          else Some (if neg then - un else un)
      end
  end.

End strconv.

(** ** unicode/utf8: decoding one rune *)

Module utf8.

Definition RuneError : Z := 65533.    (* U+FFFD *)
Definition RuneSelf : Z := 128.

Definition maskx : Z := 63.
Definition mask2 : Z := 31.
Definition mask3 : Z := 15.
Definition mask4 : Z := 7.

Definition locb : Z := 128.
Definition hicb : Z := 191.

(** Classes of first bytes: the entries of the table [first]. *)
Definition xx : Z := 241.   (* 0xF1: invalid, size 1 *)
Definition as_ : Z := 240.  (* 0xF0: ASCII, size 1 *)
Definition s1 : Z := 2.     (* 0x02: accept 0, size 2 *)
Definition s2 : Z := 19.    (* 0x13: accept 1, size 3 *)
Definition s3 : Z := 3.     (* 0x03: accept 0, size 3 *)
Definition s4 : Z := 35.    (* 0x23: accept 2, size 3 *)
Definition s5 : Z := 52.    (* 0x34: accept 3, size 4 *)
Definition s6 : Z := 4.     (* 0x04: accept 0, size 4 *)
Definition s7 : Z := 68.    (* 0x44: accept 4, size 4 *)

(** The table [first], by the ranges of its rows. *)
Definition first (b : Z) : Z :=
  if b <? 128 then as_            (* 0x00-0x7F *)
  else if b <? 194 then xx        (* 0x80-0xC1 *)
  else if b <? 224 then s1        (* 0xC2-0xDF *)
  else if b =? 224 then s2        (* 0xE0 *)
  else if b <? 237 then s3        (* 0xE1-0xEC *)
  else if b =? 237 then s4        (* 0xED *)
  else if b <? 240 then s3        (* 0xEE-0xEF *)
  else if b =? 240 then s5        (* 0xF0 *)
  else if b <? 244 then s6        (* 0xF1-0xF3 *)
  else if b =? 244 then s7        (* 0xF4 *)
  else xx.                        (* 0xF5-0xFF *)

(** The table [acceptRanges]: the range of a valid second byte. *)
Definition acceptRanges (i : Z) : Z * Z :=
  if i =? 0 then (locb, hicb)
  else if i =? 1 then (160, hicb)
  else if i =? 2 then (locb, 159)
  else if i =? 3 then (144, hicb)
  else if i =? 4 then (locb, 143)
  else (0, 0).

(** [DecodeRuneInString]: the first rune of [s] and its width in bytes;
    [(RuneError, 0)] for the empty string and [(RuneError, 1)] for an
    invalid encoding. *)
Definition DecodeRuneInString (s : string) : Z * Z :=
  let n := Z.of_nat (String.length s) in
  if n <? 1 then (RuneError, 0)
  else
    let s0 := byteAt s 0 in
    let x := first (byte s0) in
    if as_ <=? x then
      (if x =? xx then RuneError else byte s0, 1)
    else
      let sz := Z.land x 7 in
      let accept := acceptRanges (Z.shiftr x 4) in
      if n <? sz then (RuneError, 1)
      else
        let b1 := byte (byteAt s 1) in
        if (b1 <? fst accept) || (snd accept <? b1) then (RuneError, 1)
        else if sz <=? 2 then
          (Z.lor (Z.shiftl (Z.land (byte s0) mask2) 6) (Z.land b1 maskx), 2)
        else
          let b2 := byte (byteAt s 2) in
          if (b2 <? locb) || (hicb <? b2) then (RuneError, 1)
          else if sz <=? 3 then
            (Z.lor (Z.lor (Z.shiftl (Z.land (byte s0) mask3) 12)
                      (Z.shiftl (Z.land b1 maskx) 6))
               (Z.land b2 maskx), 3)
          else
            let b3 := byte (byteAt s 3) in
            if (b3 <? locb) || (hicb <? b3) then (RuneError, 1)
            else
              (Z.lor (Z.lor (Z.lor (Z.shiftl (Z.land (byte s0) mask4) 18)
                               (Z.shiftl (Z.land b1 maskx) 12))
                        (Z.shiftl (Z.land b2 maskx) 6))
                 (Z.land b3 maskx), 4).

(** [ValidString]: the loop over [s], with [fuel] at least the length of
    [s] (every round consumes a byte or more). *)
Fixpoint validLoop (fuel : nat) (s : string) : bool :=
  match fuel with
  | O => match s with EmptyString => true | _ => false end
  | S fuel' =>
      match s with
      | EmptyString => true
      | String c0 rest =>
          let si := byte c0 in
          if si <? RuneSelf then validLoop fuel' rest
          else
            let x := first si in
            if x =? xx then false
            else
              let size := Z.land x 7 in
              if Z.of_nat (String.length s) <? size then false
              else
                let accept := acceptRanges (Z.shiftr x 4) in
                let c1 := byte (byteAt s 1) in
                if (c1 <? fst accept) || (snd accept <? c1) then false
                else if size =? 2 then validLoop fuel' (drop 2 s)
                else
                  let c2 := byte (byteAt s 2) in
                  if (c2 <? locb) || (hicb <? c2) then false
                  else if size =? 3 then validLoop fuel' (drop 3 s)
                  else
                    let c3 := byte (byteAt s 3) in
                    if (c3 <? locb) || (hicb <? c3) then false
                    else validLoop fuel' (drop 4 s)
      end
  end.

Definition ValidString (s : string) : bool := validLoop (String.length s) s.

Definition rune1Max : Z := 127.
Definition rune2Max : Z := 2047.
Definition rune3Max : Z := 65535.
Definition MaxRune : Z := 1114111.       (* U+10FFFF *)
Definition surrogateMin : Z := 55296.    (* 0xD800 *)
Definition surrogateMax : Z := 57343.    (* 0xDFFF *)

Definition tx : Z := 128.
Definition t2 : Z := 192.
Definition t3 : Z := 224.
Definition t4 : Z := 240.

(** The three bytes of a rune up to [rune3Max]. *)
Definition threeBytes (r : Z) : string :=
  String (ascii_of_byte (Z.lor t3 (Z.shiftr r 12)))
    (String (ascii_of_byte (Z.lor tx (Z.land (Z.shiftr r 6) maskx)))
       (String (ascii_of_byte (Z.lor tx (Z.land r maskx))) "")).

(** [AppendRune]: [p] followed by the UTF-8 encoding of [r]; a rune out of
    range or a surrogate half is written as U+FFFD. *)
Definition AppendRune (p : string) (r : Z) : string :=
  if (0 <=? r) && (r <=? rune1Max) then p ++ String (ascii_of_byte r) ""
  else if (0 <=? r) && (r <=? rune2Max) then
    p ++ String (ascii_of_byte (Z.lor t2 (Z.shiftr r 6)))
           (String (ascii_of_byte (Z.lor tx (Z.land r maskx))) "")
  else if (r <? 0) || (MaxRune <? r)
          || ((surrogateMin <=? r) && (r <=? surrogateMax))
  then p ++ threeBytes RuneError
  else if r <=? rune3Max then p ++ threeBytes r
  else
    p ++ String (ascii_of_byte (Z.lor t4 (Z.shiftr r 18)))
           (String (ascii_of_byte (Z.lor tx (Z.land (Z.shiftr r 12) maskx)))
              (String (ascii_of_byte (Z.lor tx (Z.land (Z.shiftr r 6) maskx)))
                 (String (ascii_of_byte (Z.lor tx (Z.land r maskx))) ""))).

End utf8.

(** ** unicode: simple case folding

    [SimpleFold r] is the next rune of the orbit of [r] under simple case
    folding, the orbit taken in increasing order and closed on its
    smallest rune.  The rows below are the table [asciiFold] and the
    entries of [caseOrbit] that lead back to an ASCII letter: the orbits
    K, k, U+212A (Kelvin sign) and S, s, U+017F (long s).  No other rune
    has an ASCII letter in its orbit.  The rest of the Unicode tables is
    not reproduced: a rune outside these rows is left where it is, and so
    folds to a rune that is not ASCII, as it does in the tables. *)

Module unicode.

Definition kelvin : Z := 8490.          (* U+212A *)
Definition smallLongEss : Z := 383.     (* U+017F *)

Definition SimpleFold (r : Z) : Z :=
  if r =? 75 then 107                           (* K -> k *)
  else if r =? 107 then kelvin                  (* k -> U+212A *)
  else if r =? kelvin then 75                   (* U+212A -> K *)
  else if r =? 83 then 115                      (* S -> s *)
  else if r =? 115 then smallLongEss            (* s -> U+017F *)
  else if r =? smallLongEss then 83             (* U+017F -> S *)
  else if (65 <=? r) && (r <=? 90) then r + 32  (* A-Z -> a-z *)
  else if (97 <=? r) && (r <=? 122) then r - 32 (* a-z -> A-Z *)
  else r.

End unicode.

(** ** encoding/json: the wire format of the struct tags

    The model works on JSON values: objects keep the order of their
    members, a number is its literal, and a string is the byte string a
    decoder reads back from the literal the encoder writes.  The characters
    of the JSON text itself (quoting, escapes, white space) are below this
    level. *)

Module json.

Inductive Value : Type :=
| Null
| Bool (b : bool)
| Number (literal : string)
| Str (s : string)
| Array (elems : list Value)
| Object (members : list (string * Value)).

(** *** Go types and values, as reflection sees them *)

Record StructField (T : Type) : Type := mkField {
  Name : string;
  Anonymous : bool;     (* an embedded field *)
  Typ : T;
  Tag : string          (* the value of the [json] key of the struct tag *)
}.
Arguments mkField {T}.
Arguments Name {T}.
Arguments Anonymous {T}.
Arguments Typ {T}.
Arguments Tag {T}.

Inductive GoType : Type :=
| TInt
| TInt64
| TString
| TBool
| TSlice (elem : GoType)
| TPtr (elem : GoType)
| TStruct (fields : list (StructField GoType)).

Inductive GoVal : Type :=
| VInt (z : Z)
| VString (s : string)
| VBool (b : bool)
| VSlice (elems : option (list GoVal))      (* [None]: the nil slice *)
| VPtr (target : option GoVal)              (* [None]: the nil pointer *)
| VStruct (fields : list GoVal).

Fixpoint zero (t : GoType) : GoVal :=
  match t with
  | TInt | TInt64 => VInt 0
  | TString => VString ""
  | TBool => VBool false
  | TSlice _ => VSlice None
  | TPtr _ => VPtr None
  | TStruct sfs => VStruct (map (fun sf => zero (Typ sf)) sfs)
  end.

Definition isStruct (t : GoType) : bool :=
  match t with TStruct _ => true | _ => false end.

Definition elemOf (t : GoType) : GoType :=
  match t with TSlice e | TPtr e => e | _ => t end.

Definition fieldsOf (t : GoType) : list (StructField GoType) :=
  match t with TStruct sfs => sfs | _ => [] end.

(** *** Struct tags *)

(** [strings.Cut(s, ",")] *)
Fixpoint cutComma (s : string) : string * string :=
  match s with
  | EmptyString => ("", "")
  | String c s' =>
      if Ascii.eqb c "," then ("", s')
      else let '(a, b) := cutComma s' in (String c a, b)
  end.

Definition parseTag (tag : string) : string * string := cutComma tag.

(** [tagOptions.Contains]: [fuel] at least the length of [o]. *)
Fixpoint containsLoop (fuel : nat) (o optionName : string) : bool :=
  match fuel with
  | O => false
  | S fuel' =>
      if String.eqb o "" then false
      else
        let '(name, rest) := cutComma o in
        if String.eqb name optionName then true
        else containsLoop fuel' rest optionName
  end.

Definition Contains (o optionName : string) : bool :=
  containsLoop (String.length o) o optionName.

(** [isValidTag], for tags in ASCII: letters, digits and the punctuation
    the encoder allows in a key. *)
Definition isTagChar (c : ascii) : bool :=
  let b := byte c in
  ((48 <=? b) && (b <=? 57)) || ((65 <=? b) && (b <=? 90))
  || ((97 <=? b) && (b <=? 122))
  || match String.index 0 (String c "") "!#$%&()*+-./:;<=>?@[]^_{|}~ " with
     | Some _ => true
     | None => false
     end.

Fixpoint allTagChars (s : string) : bool :=
  match s with
  | EmptyString => true
  | String c s' => isTagChar c && allTagChars s'
  end.

Definition isValidTag (s : string) : bool :=
  negb (String.eqb s "") && allTagChars s.

(** *** The fields of a struct type *)

Record field : Type := mkfield {
  name : string;
  tag : bool;             (* the name comes from the tag *)
  index : list nat;       (* the path of field numbers, through embedded structs *)
  typ : GoType;
  omitEmpty : bool
}.

(** Every candidate field of [t], embedded structs without a key
    descended into, in the order of the declarations. *)
Fixpoint collect (t : GoType) (idx : list nat) {struct t} : list field :=
  match t with
  | TStruct sfs =>
      (fix each (sfs : list (StructField GoType)) (i : nat) {struct sfs}
         : list field :=
         match sfs with
         | [] => []
         | sf :: sfs' =>
             ((if String.eqb (Tag sf) "-" then []
              else
                let '(nm, opts) := parseTag (Tag sf) in
                let nm := if isValidTag nm then nm else "" in
                if negb (String.eqb nm "") || negb (Anonymous sf)
                   || negb (isStruct (Typ sf))
                then
                  [mkfield (if String.eqb nm "" then Name sf else nm)
                     (negb (String.eqb nm "")) (idx ++ [i]) (Typ sf)
                     (Contains opts "omitempty")]
                else collect (Typ sf) (idx ++ [i]))
               ++ each sfs' (S i))%list
         end) sfs 0%nat
  | _ => []
  end.

(** The order of [typeFields] within one name: by depth, then tagged
    fields first. *)
Definition rankLe (f g : field) : bool :=
  (length (index f) <? length (index g))%nat
  || ((length (index f) =? length (index g))%nat
      && (tag f || negb (tag g))).

Fixpoint insertByRank (f : field) (l : list field) : list field :=
  match l with
  | [] => [f]
  | g :: l' => if rankLe f g then f :: l else g :: insertByRank f l'
  end.

Definition sortByRank (l : list field) : list field :=
  fold_right insertByRank [] l.

(** [dominantField]: of the fields of one name, sorted, the first, unless
    the second has the same depth and the same tagged-ness. *)
Definition dominantField (fields : list field) : option field :=
  match fields with
  | [] => None
  | f0 :: rest =>
      match rest with
      | f1 :: _ =>
          if (length (index f0) =? length (index f1))%nat
             && Bool.eqb (tag f0) (tag f1)
          then None
          else Some f0
      | [] => Some f0
      end
  end.

Definition sameIndex (a b : list nat) : bool :=
  if list_eq_dec Nat.eq_dec a b then true else false.

Definition withName (nm : string) (all : list field) : list field :=
  filter (fun f => String.eqb (name f) nm) all.

(** [typeFields]: the fields the encoder and the decoder use, the dominant
    field of every name, in the order of their indices. *)
Definition typeFields (t : GoType) : list field :=
  let all := collect t [] in
  filter
    (fun f =>
       match dominantField (sortByRank (withName (name f) all)) with
       | Some g => sameIndex (index g) (index f)
       | None => false
       end)
    all.

(** *** Strings *)

(** The string a decoder reads from the literal the encoder writes for
    [s]: the encoder replaces every byte that does not start a valid UTF-8
    sequence by U+FFFD.  [fuel] at least the length of [s]. *)
Definition replacement : string :=
  String (ascii_of_byte 239) (String (ascii_of_byte 191)
    (String (ascii_of_byte 189) "")).

Fixpoint stringLoop (fuel : nat) (s : string) : string :=
  match fuel with
  | O => ""
  | S fuel' =>
      match s with
      | EmptyString => ""
      | String b rest =>
          if byte b <? utf8.RuneSelf then String b (stringLoop fuel' rest)
          else
            let '(c, size) := utf8.DecodeRuneInString s in
            if (c =? utf8.RuneError) && (size =? 1)
            then replacement ++ stringLoop fuel' rest
            else slice s 0 size ++ stringLoop fuel' (drop (Z.to_nat size) s)
      end
  end.

Definition stringValue (s : string) : string := stringLoop (String.length s) s.

(** *** Encoding *)

Definition isEmptyValue (v : GoVal) : bool :=
  match v with
  | VInt z => z =? 0
  | VString s => (String.length s =? 0)%nat
  | VBool b => negb b
  | VSlice None => true
  | VSlice (Some l) => (length l =? 0)%nat
  | VPtr None => true
  | VPtr (Some _) => false
  | VStruct _ => false
  end.

Fixpoint lookupIndex {A : Type} (idx : list nat) (l : list (list nat * A))
  : option A :=
  match l with
  | [] => None
  | (i, a) :: l' => if sameIndex i idx then Some a else lookupIndex idx l'
  end.

(** Whether the encoder descends into a struct field for its fields: an
    embedded struct without a key. *)
Definition descends (sf : StructField GoType) : bool :=
  negb (String.eqb (Tag sf) "-")
  && (let nm := fst (parseTag (Tag sf)) in
      negb (isValidTag nm))
  && Anonymous sf && isStruct (Typ sf).

(** The object of a struct value: for every field of [typeFields], in
    order, the value at its index, unless [omitempty] drops it. *)
Definition structObject (fields : list field)
  (leaves : list (list nat * (bool * Value))) : Value :=
  Object
    (flat_map
       (fun f =>
          match lookupIndex (index f) leaves with
          | Some (empty, j) =>
              if omitEmpty f && empty then [] else [(name f, j)]
          | None => []
          end)
       fields).

(** The encoded fields of a struct value by index: a field the encoder
    descends into gives the fields of its own value, the index prefixed. *)
Fixpoint encodeFields
  (enc : GoType -> GoVal -> Value * list (list nat * (bool * Value)))
  (sfs : list (StructField GoType)) (vs : list GoVal) (i : nat) {struct vs}
  : list (list nat * (bool * Value)) :=
  match vs, sfs with
  | x :: vs', sf :: sfs' =>
      let r := enc (Typ sf) x in
      ((if descends sf
        then map (fun e => (i :: fst e, snd e)) (snd r)
        else [([i], (isEmptyValue x, fst r))])
         ++ encodeFields enc sfs' vs' (S i))%list
  | _, _ => []
  end.

(** The encoding of [v] at type [t], together with, for a struct, the
    encoded value of every field by index, those of embedded structs
    included (the values [FieldByIndex] reaches). *)
Fixpoint encodeWithLeaves (t : GoType) (v : GoVal) {struct v}
  : Value * list (list nat * (bool * Value)) :=
  match v with
  | VInt z => (Number (strconv.FormatInt z 10), [])
  | VString s => (Str (stringValue s), [])
  | VBool b => (Bool b, [])
  | VSlice None => (Null, [])
  | VSlice (Some l) =>
      (Array (map (fun x => fst (encodeWithLeaves (elemOf t) x)) l), [])
  | VPtr None => (Null, [])
  | VPtr (Some x) => (fst (encodeWithLeaves (elemOf t) x), [])
  | VStruct vs =>
      let leaves := encodeFields encodeWithLeaves (fieldsOf t) vs 0%nat in
      (structObject (typeFields t) leaves, leaves)
  end.

Definition encode (t : GoType) (v : GoVal) : Value :=
  fst (encodeWithLeaves t v).

(** *** Decoding *)

Fixpoint fieldByIndex (v : GoVal) (idx : list nat) : option GoVal :=
  match idx with
  | [] => Some v
  | i :: idx' =>
      match v with
      | VStruct vs =>
          match nth_error vs i with
          | Some x => fieldByIndex x idx'
          | None => None
          end
      | _ => None
      end
  end.

Fixpoint setNth {A : Type} (l : list A) (i : nat) (a : A) : list A :=
  match l, i with
  | [], _ => []
  | _ :: l', O => a :: l'
  | x :: l', S i' => x :: setNth l' i' a
  end.

Fixpoint setByIndex (v : GoVal) (idx : list nat) (new : GoVal) : GoVal :=
  match idx with
  | [] => new
  | i :: idx' =>
      match v with
      | VStruct vs =>
          match nth_error vs i with
          | Some x => VStruct (setNth vs i (setByIndex x idx' new))
          | None => v
          end
      | _ => v
      end
  end.

(** [foldRune]: the smallest rune of the orbit of [r].  [fuel] at least
    the size of the orbit. *)
Fixpoint foldRuneLoop (fuel : nat) (r : Z) : Z :=
  match fuel with
  | O => r
  | S fuel' =>
      let r2 := unicode.SimpleFold r in
      if r2 <=? r then r2 else foldRuneLoop fuel' r2
  end.

Definition foldRune (r : Z) : Z := foldRuneLoop 4 r.

(** [appendFoldedName]: an ASCII byte is upper-cased where it stands; any
    other byte starts a rune, which is decoded, folded and written again
    (a byte that starts no rune as U+FFFD).  [fuel] at least the length
    of [s]. *)
Fixpoint appendFoldedName (fuel : nat) (out s : string) : string :=
  match fuel with
  | O => out
  | S fuel' =>
      match s with
      | EmptyString => out
      | String c rest =>
          let b := byte c in
          if b <? utf8.RuneSelf then
            appendFoldedName fuel'
              (out ++ String (if (97 <=? b) && (b <=? 122)
                              then ascii_of_byte (b - 32) else c) "")
              rest
          else
            let '(r, n) := utf8.DecodeRuneInString s in
            appendFoldedName fuel' (utf8.AppendRune out (foldRune r))
              (drop (Z.to_nat n) s)
      end
  end.

(** Key matching: the exact name first, then the names equal under case
    folding, [foldName x = foldName y] being [bytes.EqualFold x y]. *)
Definition foldName (s : string) : string :=
  appendFoldedName (String.length s) "" s.

Definition findField (fields : list field) (key : string) : option field :=
  match find (fun f => String.eqb (name f) key) fields with
  | Some f => Some f
  | None =>
      find (fun f => String.eqb (foldName (name f)) (foldName key)) fields
  end.

(** [indirect]: a value that is not [null] is stored behind the pointers of
    the target, allocated when they are nil. *)
Fixpoint indirect (t : GoType) (cur : GoVal)
  (store : GoType -> GoVal -> option GoVal) {struct t} : option GoVal :=
  match t with
  | TPtr e =>
      let inner := match cur with VPtr (Some x) => x | _ => zero e end in
      match indirect e inner store with
      | Some x => Some (VPtr (Some x))
      | None => None
      end
  | _ => store t cur
  end.

(** The elements of an array, each decoded into the element the target
    slice already has at its place, or into a fresh one beyond its length
    (spare capacity is not part of the model). *)
Fixpoint decodeElements (dec : Value -> GoVal -> option GoVal)
  (fresh : GoVal) (js : list Value) (old : list GoVal) {struct js}
  : option (list GoVal) :=
  match js with
  | [] => Some []
  | j :: js' =>
      let target := match old with x :: _ => x | [] => fresh end in
      match dec j target with
      | Some x =>
          match decodeElements dec fresh js' (tl old) with
          | Some xs => Some (x :: xs)
          | None => None
          end
      | None => None
      end
  end.

(** The members of an object, in order, each decoded into the field its
    key selects; a key without a field is skipped. *)
Fixpoint decodeMembers (dec : Value -> GoType -> GoVal -> option GoVal)
  (fields : list field) (ms : list (string * Value)) (cur : GoVal)
  {struct ms} : option GoVal :=
  match ms with
  | [] => Some cur
  | m :: ms' =>
      match findField fields (fst m) with
      | None => decodeMembers dec fields ms' cur
      | Some f =>
          match fieldByIndex cur (index f) with
          | Some sub =>
              match dec (snd m) (typ f) sub with
              | Some sub' =>
                  decodeMembers dec fields ms' (setByIndex cur (index f) sub')
              | None => None
              end
          | None => None
          end
      end
  end.

(** [decode j t cur]: the value of the target of type [t], holding [cur],
    after [j] is decoded into it; [None] when [Unmarshal] returns an
    error. *)
Fixpoint decode (j : Value) (t : GoType) (cur : GoVal) {struct j}
  : option GoVal :=
  match j with
  | Null =>
      Some (match t with
            | TPtr _ => VPtr None
            | TSlice _ => VSlice None
            | _ => cur
            end)
  | Bool b =>
      indirect t cur
        (fun t _ => match t with TBool => Some (VBool b) | _ => None end)
  | Str s =>
      indirect t cur
        (fun t _ => match t with TString => Some (VString s) | _ => None end)
  | Number literal =>
      indirect t cur
        (fun t _ =>
           match t with
           | TInt | TInt64 =>
               match strconv.ParseInt literal with
               | Some n => Some (VInt n)
               | None => None
               end
           | _ => None
           end)
  | Array js =>
      indirect t cur
        (fun t cur =>
           match t with
           | TSlice e =>
               let old := match cur with VSlice (Some l) => l | _ => [] end in
               match decodeElements (fun j' x => decode j' e x) (zero e) js old
               with
               | Some xs => Some (VSlice (Some xs))
               | None => None
               end
           | _ => None
           end)
  | Object ms =>
      indirect t cur
        (fun t cur =>
           match t with
           | TStruct _ => decodeMembers decode (typeFields t) ms cur
           | _ => None
           end)
  end.

(** *** Entities: Go structs with their reflection *)

Class Entity (A : Type) : Type := {
  typeOf : GoType;
  toVal : A -> GoVal;
  ofVal : GoVal -> option A
}.
Arguments typeOf A {_}.

Definition Marshal {A : Type} `{Entity A} (a : A) : Value :=
  encode (typeOf A) (toVal a).

Definition Unmarshal {A : Type} `{Entity A} (j : Value) : option A :=
  match decode j (typeOf A) (zero (typeOf A)) with
  | Some v => ofVal v
  | None => None
  end.

End json.

(** ** Decimal digits

    The digits of the Standard Library's decimal numbers, to compare the
    formatting with. *)

Definition cons_digit (d : Z) (u : Decimal.uint) : Decimal.uint :=
  match d with
  | 0 => Decimal.D0 u
  | 1 => Decimal.D1 u
  | 2 => Decimal.D2 u
  | 3 => Decimal.D3 u
  | 4 => Decimal.D4 u
  | 5 => Decimal.D5 u
  | 6 => Decimal.D6 u
  | 7 => Decimal.D7 u
  | 8 => Decimal.D8 u
  | _ => Decimal.D9 u
  end.

Definition digit_char (d : Z) : ascii := byteAt strconv.digits d.

(** Little-endian digits of a natural number given as a [Z]. *)
Definition zlu (u : Z) : Decimal.uint := Unsigned.to_lu (Z.to_N u).

(** The digits of a natural number below [2 ^ 64], most significant first. *)
Definition digits_of (u : Z) : string :=
  NilEmpty.string_of_uint (Decimal.revapp (zlu u) Decimal.Nil).

(** The decimal string form of an integer, as the Standard Library prints
    it: the reference the formatting above is compared with. *)
Definition decimal_string (n : Z) : string :=
  NilZero.string_of_int (Z.to_int n).

(** ** Receivers

    The methods of [types.go] have pointer receivers.  A method is a
    computation over the state of its receiver: it returns its result
    together with the receiver as the call leaves it. *)

Definition Method (S A : Type) : Type := S -> A * S.

Definition ret {S A : Type} (a : A) : Method S A := fun s => (a, s).

Definition bind {S A B : Type} (m : Method S A) (k : A -> Method S B)
  : Method S B :=
  fun s => let '(a, s') := m s in k a s'.

(** Reading a field of the receiver. *)
Definition read {S A : Type} (proj : S -> A) : Method S A :=
  fun s => (proj s, s).

Declare Scope method_scope.
Delimit Scope method_scope with method.
Notation "x <- m ;; k" := (bind m (fun x => k))
  (at level 61, m at next level, right associativity) : method_scope.

(** The result of a call, and the receiver after it. *)
Definition result {S A : Type} (m : Method S A) (s : S) : A := fst (m s).
Definition after {S A : Type} (m : Method S A) (s : S) : S := snd (m s).

(** Two calls in a row on the same receiver. *)
Definition twice {S A : Type} (m : Method S A) : Method S (A * A) :=
  bind m (fun r1 => bind m (fun r2 => ret (r1, r2))).

(** ** User *)

Record User : Type := mkUser {
  User_ID : Z;                (* int *)
  User_FirstName : string;
  User_LastName : string;
  User_Username : string
}.

(** ** Chat *)

(** [ChatType] is a string type; the methods compare it with string
    constants. *)
Definition ChatType : Type := string.

Record Chat : Type := mkChat {
  Chat_ID : Z;                (* int64 *)
  Chat_Type : ChatType;
  Chat_Title : string;
  Chat_FirstName : string;
  Chat_LastName : string;
  Chat_Username : string
}.

(** ** The other entities the properties below speak of *)

Record Contact : Type := mkContact {
  Contact_UserID : Z;         (* int *)
  Contact_PhoneNumber : string;
  Contact_FirstName : string;
  Contact_LastName : string
}.

Record KeyboardButton : Type := mkKeyboardButton {
  KeyboardButton_Text : string;
  KeyboardButton_Contact : bool;
  KeyboardButton_Location : bool
}.

Record InlineButton : Type := mkInlineButton {
  InlineButton_Text : string;
  InlineButton_URL : string;
  InlineButton_Data : string;
  InlineButton_InlineQuery : string
}.

(** A slice is [None] when nil: [[][]InlineButton]. *)
Record InlineKeyboardMarkup : Type := mkInlineKeyboardMarkup {
  InlineKeyboard : option (list (option (list InlineButton)))
}.

Record CallbackResponse : Type := mkCallbackResponse {
  CallbackID : string;
  Text : string;
  ShowAlert : bool;
  URL : string
}.

(** [r.CallbackID = id]: [CallbackID] is an exported field of the struct,
    assigned like any other by whoever holds the response. *)
Definition setCallbackID (id : string) (r : CallbackResponse)
  : CallbackResponse :=
  {| CallbackID := id;
     Text := Text r;
     ShowAlert := ShowAlert r;
     URL := URL r |}.

Record ChatMember : Type := mkChatMember {
  ChatMember_User : User;
  ChatMember_Status : string
}.

(** [Message] and [Query] are declared outside [types.go]; [Callback] and
    [Update] hold pointers to them ([None]: nil). *)
Section Envelope.

Variables Message Query : Type.

Record Callback : Type := mkCallback {
  Callback_ID : string;
  Callback_Sender : option User;
  Callback_Message : option Message;
  Callback_MessageID : string;
  Callback_Data : string
}.

Record Update : Type := mkUpdate {
  Update_ID : Z;              (* int64 *)
  Update_Payload : option Message;
  Update_Callback : option Callback;
  Update_Query : option Query
}.

(** Modelled from the spec: the dispatch policy of a consumer of updates
    (check Callback first, then Query, then fall back to treating Payload
    as a plain message); [types.go] declares the envelope only. *)
Inductive Dispatch : Type :=
| AsCallback (c : Callback)
| AsQuery (q : Query)
| AsMessage (payload : option Message).

Definition dispatch (u : Update) : Dispatch :=
  match Update_Callback u with
  | Some c => AsCallback c
  | None =>
      match Update_Query u with
      | Some q => AsQuery q
      | None => AsMessage (Update_Payload u)
      end
  end.

(** Modelled from the spec: the CallbackResponse builder (input: a
    Callback, to source its identifier, plus caller-supplied display text,
    alert flag and URL); [types.go] declares the two structs only. *)
Definition buildCallbackResponse (c : Callback) (text : string)
  (showAlert : bool) (url : string) : CallbackResponse :=
  {| CallbackID := Callback_ID c;
     Text := text;
     ShowAlert := showAlert;
     URL := url |}.

End Envelope.

Arguments mkCallback {Message}.
Arguments Callback_ID {Message}.
Arguments Callback_Sender {Message}.
Arguments Callback_Message {Message}.
Arguments Callback_MessageID {Message}.
Arguments Callback_Data {Message}.
Arguments mkUpdate {Message Query}.
Arguments Update_ID {Message Query}.
Arguments Update_Payload {Message Query}.
Arguments Update_Callback {Message Query}.
Arguments Update_Query {Message Query}.
Arguments AsCallback {Message Query}.
Arguments AsQuery {Message Query}.
Arguments AsMessage {Message Query}.
Arguments dispatch {Message Query}.
Arguments buildCallbackResponse {Message}.

Module UserMethods.
#[local] Open Scope method_scope.

(** [func (u *User) Destination() string] *)
Definition Destination : Method User string :=
  id <- read User_ID ;;
  ret (strconv.Itoa id).
End UserMethods.

Module ChatMethods.
#[local] Open Scope method_scope.

(** [func (c *Chat) Destination() string] *)
Definition Destination : Method Chat string :=
  username <- read Chat_Username ;;
  let r := "@" ++ username in
  type <- read Chat_Type ;;
  if negb (type =? "channel")%string then
    id <- read Chat_ID ;;
    ret (strconv.FormatInt id 10)
  else ret r.

(** [func (c *Chat) IsGroupChat() bool] *)
Definition IsGroupChat : Method Chat bool :=
  type <- read Chat_Type ;;
  ret (negb (type =? "private")%string).
End ChatMethods.

(** ** Recipient: the interface both implement *)

Class Recipient (A : Type) : Type := {
  Destination : A -> string
}.

#[export] Instance User_Recipient : Recipient User :=
  {| Destination := result UserMethods.Destination |}.

#[export] Instance Chat_Recipient : Recipient Chat :=
  {| Destination := result ChatMethods.Destination |}.

Definition IsGroupChat (c : Chat) : bool := result ChatMethods.IsGroupChat c.


(** ** The wire format of the entities

    The type descriptors repeat the declarations of [types.go], tags
    included.  [Location] and [Venue] are not among them: their
    coordinates are [float32], and the decimal formatting and parsing of
    floating-point numbers are not part of this model. *)

Module wire.
Import json.

Definition fld (name : string) (t : GoType) (tag : string)
  : StructField GoType := mkField name false t tag.

Definition embedded (name : string) (t : GoType) : StructField GoType :=
  mkField name true t "".

(** *** User *)

Definition User_t : GoType :=
  TStruct [ fld "ID" TInt "id";
            fld "FirstName" TString "first_name";
            fld "LastName" TString "last_name";
            fld "Username" TString "username" ].

#[export] Instance User_Entity : Entity User := {|
  typeOf := User_t;
  toVal u := VStruct [ VInt (User_ID u); VString (User_FirstName u);
                       VString (User_LastName u); VString (User_Username u) ];
  ofVal v :=
    match v with
    | VStruct [VInt id; VString f; VString l; VString u] =>
        Some (mkUser id f l u)
    | _ => None
    end
|}.

(** *** Chat *)

Definition Chat_t : GoType :=
  TStruct [ fld "ID" TInt64 "id";
            fld "Type" TString "type";
            fld "Title" TString "title";
            fld "FirstName" TString "first_name";
            fld "LastName" TString "last_name";
            fld "Username" TString "username" ].

#[export] Instance Chat_Entity : Entity Chat := {|
  typeOf := Chat_t;
  toVal c := VStruct [ VInt (Chat_ID c); VString (Chat_Type c);
                       VString (Chat_Title c); VString (Chat_FirstName c);
                       VString (Chat_LastName c); VString (Chat_Username c) ];
  ofVal v :=
    match v with
    | VStruct [VInt id; VString ty; VString t; VString f; VString l;
               VString u] => Some (mkChat id ty t f l u)
    | _ => None
    end
|}.

(** *** File *)

(** Modelled from the spec: the generic file descriptor the media types
    embed (remote file identifier and size); its declaration is not in
    [types.go].  The wire names are those of the remote schema. *)
Record File : Type := mkFile {
  File_FileID : string;
  File_FileSize : Z       (* int *)
}.

Definition File_t : GoType :=
  TStruct [ fld "FileID" TString "file_id";
            fld "FileSize" TInt "file_size" ].

Definition File_toVal (f : File) : GoVal :=
  VStruct [ VString (File_FileID f); VInt (File_FileSize f) ].

Definition File_ofVal (v : GoVal) : option File :=
  match v with
  | VStruct [VString id; VInt size] => Some (mkFile id size)
  | _ => None
  end.

(** *** Photo *)

Record Photo : Type := mkPhoto {
  Photo_File : File;           (* embedded *)
  Photo_Width : Z;
  Photo_Height : Z;
  Photo_Caption : string
}.

Definition Photo_t : GoType :=
  TStruct [ embedded "File" File_t;
            fld "Width" TInt "width";
            fld "Height" TInt "height";
            fld "Caption" TString "caption,omitempty" ].

Definition Photo_toVal (p : Photo) : GoVal :=
  VStruct [ File_toVal (Photo_File p); VInt (Photo_Width p);
            VInt (Photo_Height p); VString (Photo_Caption p) ].

Definition Photo_ofVal (v : GoVal) : option Photo :=
  match v with
  | VStruct [f; VInt w; VInt h; VString c] =>
      match File_ofVal f with
      | Some f => Some (mkPhoto f w h c)
      | None => None
      end
  | _ => None
  end.

(** *** Audio *)

Record Audio : Type := mkAudio {
  Audio_File : File;           (* embedded *)
  Audio_Duration : Z;
  Audio_Title : string;
  Audio_Performer : string;
  Audio_Mime : string;
  Audio_Caption : string
}.

Definition Audio_t : GoType :=
  TStruct [ embedded "File" File_t;
            fld "Duration" TInt "duration";
            fld "Title" TString "title";
            fld "Performer" TString "performer";
            fld "Mime" TString "mime_type";
            fld "Caption" TString "caption,omitempty" ].

Definition Audio_toVal (a : Audio) : GoVal :=
  VStruct [ File_toVal (Audio_File a); VInt (Audio_Duration a);
            VString (Audio_Title a); VString (Audio_Performer a);
            VString (Audio_Mime a); VString (Audio_Caption a) ].

Definition Audio_ofVal (v : GoVal) : option Audio :=
  match v with
  | VStruct [f; VInt d; VString t; VString p; VString m; VString c] =>
      match File_ofVal f with
      | Some f => Some (mkAudio f d t p m c)
      | None => None
      end
  | _ => None
  end.

(** *** Video *)

Record Video : Type := mkVideo {
  Video_Audio : Audio;         (* embedded *)
  Video_Width : Z;
  Video_Height : Z;
  Video_Caption : string;
  Video_Thumbnail : Photo
}.

Definition Video_t : GoType :=
  TStruct [ embedded "Audio" Audio_t;
            fld "Width" TInt "width";
            fld "Height" TInt "height";
            fld "Caption" TString "caption,omitempty";
            fld "Thumbnail" Photo_t "thumb" ].

#[export] Instance Video_Entity : Entity Video := {|
  typeOf := Video_t;
  toVal x := VStruct [ Audio_toVal (Video_Audio x); VInt (Video_Width x);
                       VInt (Video_Height x); VString (Video_Caption x);
                       Photo_toVal (Video_Thumbnail x) ];
  ofVal v :=
    match v with
    | VStruct [a; VInt w; VInt h; VString c; t] =>
        match Audio_ofVal a, Photo_ofVal t with
        | Some a, Some t => Some (mkVideo a w h c t)
        | _, _ => None
        end
    | _ => None
    end
|}.

(** *** Photo and Audio as entities of their own *)

#[export] Instance Photo_Entity : Entity Photo := {|
  typeOf := Photo_t;
  toVal := Photo_toVal;
  ofVal := Photo_ofVal
|}.

#[export] Instance Audio_Entity : Entity Audio := {|
  typeOf := Audio_t;
  toVal := Audio_toVal;
  ofVal := Audio_ofVal
|}.

(** *** Voice *)

Record Voice : Type := mkVoice {
  Voice_File : File;           (* embedded *)
  Voice_Duration : Z;
  Voice_Mime : string;
  Voice_Caption : string
}.

Definition Voice_t : GoType :=
  TStruct [ embedded "File" File_t;
            fld "Duration" TInt "duration";
            fld "Mime" TString "mime_type";
            fld "Caption" TString "caption,omitempty" ].

#[export] Instance Voice_Entity : Entity Voice := {|
  typeOf := Voice_t;
  toVal x := VStruct [ File_toVal (Voice_File x); VInt (Voice_Duration x);
                       VString (Voice_Mime x); VString (Voice_Caption x) ];
  ofVal v :=
    match v with
    | VStruct [f; VInt d; VString m; VString c] =>
        match File_ofVal f with
        | Some f => Some (mkVoice f d m c)
        | None => None
        end
    | _ => None
    end
|}.

(** *** Document *)

Record Document : Type := mkDocument {
  Document_File : File;        (* embedded *)
  Document_Preview : Photo;
  Document_FileName : string;
  Document_Mime : string;
  Document_Caption : string
}.

Definition Document_t : GoType :=
  TStruct [ embedded "File" File_t;
            fld "Preview" Photo_t "thumb";
            fld "FileName" TString "file_name";
            fld "Mime" TString "mime_type";
            fld "Caption" TString "caption,omitempty" ].

#[export] Instance Document_Entity : Entity Document := {|
  typeOf := Document_t;
  toVal x := VStruct [ File_toVal (Document_File x);
                       Photo_toVal (Document_Preview x);
                       VString (Document_FileName x);
                       VString (Document_Mime x);
                       VString (Document_Caption x) ];
  ofVal v :=
    match v with
    | VStruct [f; p; VString n; VString m; VString c] =>
        match File_ofVal f, Photo_ofVal p with
        | Some f, Some p => Some (mkDocument f p n m c)
        | _, _ => None
        end
    | _ => None
    end
|}.

(** *** Sticker *)

Record Sticker : Type := mkSticker {
  Sticker_File : File;         (* embedded *)
  Sticker_Width : Z;
  Sticker_Height : Z;
  Sticker_Thumbnail : Photo;
  Sticker_Emoji : string
}.

Definition Sticker_t : GoType :=
  TStruct [ embedded "File" File_t;
            fld "Width" TInt "width";
            fld "Height" TInt "height";
            fld "Thumbnail" Photo_t "thumb";
            fld "Emoji" TString "emoji" ].

#[export] Instance Sticker_Entity : Entity Sticker := {|
  typeOf := Sticker_t;
  toVal x := VStruct [ File_toVal (Sticker_File x); VInt (Sticker_Width x);
                       VInt (Sticker_Height x);
                       Photo_toVal (Sticker_Thumbnail x);
                       VString (Sticker_Emoji x) ];
  ofVal v :=
    match v with
    | VStruct [f; VInt w; VInt h; t; VString e] =>
        match File_ofVal f, Photo_ofVal t with
        | Some f, Some t => Some (mkSticker f w h t e)
        | _, _ => None
        end
    | _ => None
    end
|}.

(** *** VideoNote *)

Record VideoNote : Type := mkVideoNote {
  VideoNote_File : File;       (* embedded *)
  VideoNote_Duration : Z;
  VideoNote_Thumbnail : Photo
}.

Definition VideoNote_t : GoType :=
  TStruct [ embedded "File" File_t;
            fld "Duration" TInt "duration";
            fld "Thumbnail" Photo_t "thumb" ].

#[export] Instance VideoNote_Entity : Entity VideoNote := {|
  typeOf := VideoNote_t;
  toVal x := VStruct [ File_toVal (VideoNote_File x);
                       VInt (VideoNote_Duration x);
                       Photo_toVal (VideoNote_Thumbnail x) ];
  ofVal v :=
    match v with
    | VStruct [f; VInt d; t] =>
        match File_ofVal f, Photo_ofVal t with
        | Some f, Some t => Some (mkVideoNote f d t)
        | _, _ => None
        end
    | _ => None
    end
|}.

(** *** Contact *)

Definition Contact_t : GoType :=
  TStruct [ fld "UserID" TInt "user_id";
            fld "PhoneNumber" TString "phone_number";
            fld "FirstName" TString "first_name";
            fld "LastName" TString "last_name" ].

#[export] Instance Contact_Entity : Entity Contact := {|
  typeOf := Contact_t;
  toVal c := VStruct [ VInt (Contact_UserID c);
                       VString (Contact_PhoneNumber c);
                       VString (Contact_FirstName c);
                       VString (Contact_LastName c) ];
  ofVal v :=
    match v with
    | VStruct [VInt id; VString p; VString f; VString l] =>
        Some (mkContact id p f l)
    | _ => None
    end
|}.

(** *** KeyboardButton *)

Definition KeyboardButton_t : GoType :=
  TStruct [ fld "Text" TString "text";
            fld "Contact" TBool "request_contact,omitempty";
            fld "Location" TBool "request_location,omitempty" ].

#[export] Instance KeyboardButton_Entity : Entity KeyboardButton := {|
  typeOf := KeyboardButton_t;
  toVal b := VStruct [ VString (KeyboardButton_Text b);
                       VBool (KeyboardButton_Contact b);
                       VBool (KeyboardButton_Location b) ];
  ofVal v :=
    match v with
    | VStruct [VString t; VBool c; VBool l] => Some (mkKeyboardButton t c l)
    | _ => None
    end
|}.

(** *** InlineButton *)

Definition InlineButton_t : GoType :=
  TStruct [ fld "Text" TString "text";
            fld "URL" TString "url,omitempty";
            fld "Data" TString "callback_data,omitempty";
            fld "InlineQuery" TString "switch_inline_query,omitempty" ].

#[export] Instance InlineButton_Entity : Entity InlineButton := {|
  typeOf := InlineButton_t;
  toVal b := VStruct [ VString (InlineButton_Text b);
                       VString (InlineButton_URL b);
                       VString (InlineButton_Data b);
                       VString (InlineButton_InlineQuery b) ];
  ofVal v :=
    match v with
    | VStruct [VString t; VString u; VString d; VString q] =>
        Some (mkInlineButton t u d q)
    | _ => None
    end
|}.

(** *** Slices and pointers of entities *)

Definition sliceVal {A : Type} (f : A -> GoVal) (l : option (list A))
  : GoVal :=
  VSlice (option_map (map f) l).

Fixpoint allSome {A : Type} (l : list (option A)) : option (list A) :=
  match l with
  | [] => Some []
  | Some a :: l' =>
      match allSome l' with
      | Some r => Some (a :: r)
      | None => None
      end
  | None :: _ => None
  end.

Definition sliceOf {A : Type} (f : GoVal -> option A) (v : GoVal)
  : option (option (list A)) :=
  match v with
  | VSlice None => Some None
  | VSlice (Some l) =>
      match allSome (map f l) with
      | Some r => Some (Some r)
      | None => None
      end
  | _ => None
  end.

Definition ptrVal {A : Type} (f : A -> GoVal) (p : option A) : GoVal :=
  VPtr (option_map f p).

Definition ptrOf {A : Type} (f : GoVal -> option A) (v : GoVal)
  : option (option A) :=
  match v with
  | VPtr None => Some None
  | VPtr (Some x) =>
      match f x with
      | Some a => Some (Some a)
      | None => None
      end
  | _ => None
  end.

(** *** InlineKeyboardMarkup *)

Definition InlineKeyboardMarkup_t : GoType :=
  TStruct [ fld "InlineKeyboard" (TSlice (TSlice InlineButton_t))
              "inline_keyboard,omitempty" ].

#[export] Instance InlineKeyboardMarkup_Entity : Entity InlineKeyboardMarkup
  := {|
  typeOf := InlineKeyboardMarkup_t;
  toVal m := VStruct [ sliceVal (sliceVal toVal) (InlineKeyboard m) ];
  ofVal v :=
    match v with
    | VStruct [k] =>
        match sliceOf (sliceOf ofVal) k with
        | Some k => Some (mkInlineKeyboardMarkup k)
        | None => None
        end
    | _ => None
    end
|}.

(** *** CallbackResponse *)

Definition CallbackResponse_t : GoType :=
  TStruct [ fld "CallbackID" TString "callback_query_id";
            fld "Text" TString "text,omitempty";
            fld "ShowAlert" TBool "show_alert,omitempty";
            fld "URL" TString "url,omitempty" ].

#[export] Instance CallbackResponse_Entity : Entity CallbackResponse := {|
  typeOf := CallbackResponse_t;
  toVal r := VStruct [ VString (CallbackID r); VString (Text r);
                       VBool (ShowAlert r); VString (URL r) ];
  ofVal v :=
    match v with
    | VStruct [VString i; VString t; VBool a; VString u] =>
        Some (mkCallbackResponse i t a u)
    | _ => None
    end
|}.

(** *** ChatMember *)

Definition ChatMember_t : GoType :=
  TStruct [ fld "User" User_t "user";
            fld "Status" TString "status" ].

#[export] Instance ChatMember_Entity : Entity ChatMember := {|
  typeOf := ChatMember_t;
  toVal m := VStruct [ toVal (ChatMember_User m);
                       VString (ChatMember_Status m) ];
  ofVal v :=
    match v with
    | VStruct [u; VString s] =>
        match ofVal u with
        | Some u => Some (mkChatMember u s)
        | None => None
        end
    | _ => None
    end
|}.

(** *** UserProfilePhotos *)

(** [Photos] is a slice of slices ([None]: nil): [[][]Photo]. *)
Record UserProfilePhotos : Type := mkUserProfilePhotos {
  UserProfilePhotos_Count : Z;
  UserProfilePhotos_Photos : option (list (option (list Photo)))
}.

Definition UserProfilePhotos_t : GoType :=
  TStruct [ fld "Count" TInt "total_count";
            fld "Photos" (TSlice (TSlice Photo_t)) "photos" ].

#[export] Instance UserProfilePhotos_Entity : Entity UserProfilePhotos := {|
  typeOf := UserProfilePhotos_t;
  toVal p := VStruct [ VInt (UserProfilePhotos_Count p);
                       sliceVal (sliceVal toVal) (UserProfilePhotos_Photos p) ];
  ofVal v :=
    match v with
    | VStruct [VInt n; ps] =>
        match sliceOf (sliceOf ofVal) ps with
        | Some ps => Some (mkUserProfilePhotos n ps)
        | None => None
        end
    | _ => None
    end
|}.

(** *** Callback and Update *)

Section Envelope.

Context {Message Query : Type} `{Entity Message} `{Entity Query}.

Definition Callback_t : GoType :=
  TStruct [ fld "ID" TString "id";
            fld "Sender" (TPtr User_t) "from";
            fld "Message" (TPtr (typeOf Message)) "message";
            fld "MessageID" TString "inline_message_id";
            fld "Data" TString "data" ].

#[export] Instance Callback_Entity : Entity (Callback Message) := {|
  typeOf := Callback_t;
  toVal c := VStruct [ VString (Callback_ID c);
                       ptrVal toVal (Callback_Sender c);
                       ptrVal toVal (Callback_Message c);
                       VString (Callback_MessageID c);
                       VString (Callback_Data c) ];
  ofVal v :=
    match v with
    | VStruct [VString i; s; m; VString mi; VString d] =>
        match ptrOf ofVal s, ptrOf ofVal m with
        | Some s, Some m => Some (mkCallback i s m mi d)
        | _, _ => None
        end
    | _ => None
    end
|}.

Definition Update_t : GoType :=
  TStruct [ fld "ID" TInt64 "update_id";
            fld "Payload" (TPtr (typeOf Message)) "message";
            fld "Callback" (TPtr Callback_t) "callback_query";
            fld "Query" (TPtr (typeOf Query)) "inline_query" ].

#[export] Instance Update_Entity : Entity (Update Message Query) := {|
  typeOf := Update_t;
  toVal u := VStruct [ VInt (Update_ID u);
                       ptrVal toVal (Update_Payload u);
                       ptrVal toVal (Update_Callback u);
                       ptrVal toVal (Update_Query u) ];
  ofVal v :=
    match v with
    | VStruct [VInt i; p; c; q] =>
        match ptrOf ofVal p, ptrOf ofVal c, ptrOf ofVal q with
        | Some p, Some c, Some q => Some (mkUpdate i p c q)
        | _, _, _ => None
        end
    | _ => None
    end
|}.

End Envelope.

End wire.

(** ** Values the wire format carries faithfully

    Strings of valid UTF-8, integers of the width of their field. *)

Definition User_valid (u : User) : bool :=
  in_int64b (User_ID u)
  && utf8.ValidString (User_FirstName u)
  && utf8.ValidString (User_LastName u)
  && utf8.ValidString (User_Username u).

Definition Chat_valid (c : Chat) : bool :=
  in_int64b (Chat_ID c)
  && utf8.ValidString (Chat_Type c)
  && utf8.ValidString (Chat_Title c)
  && utf8.ValidString (Chat_FirstName c)
  && utf8.ValidString (Chat_LastName c)
  && utf8.ValidString (Chat_Username c).

Definition Contact_valid (c : Contact) : bool :=
  in_int64b (Contact_UserID c)
  && utf8.ValidString (Contact_PhoneNumber c)
  && utf8.ValidString (Contact_FirstName c)
  && utf8.ValidString (Contact_LastName c).

Definition KeyboardButton_valid (b : KeyboardButton) : bool :=
  utf8.ValidString (KeyboardButton_Text b).

Definition InlineButton_valid (b : InlineButton) : bool :=
  utf8.ValidString (InlineButton_Text b)
  && utf8.ValidString (InlineButton_URL b)
  && utf8.ValidString (InlineButton_Data b)
  && utf8.ValidString (InlineButton_InlineQuery b).

Definition slice_valid {A : Type} (valid : A -> bool) (l : option (list A))
  : bool :=
  match l with
  | None => true
  | Some l => forallb valid l
  end.

Definition InlineKeyboardMarkup_valid (m : InlineKeyboardMarkup) : bool :=
  slice_valid (slice_valid InlineButton_valid) (InlineKeyboard m).

Definition CallbackResponse_valid (r : CallbackResponse) : bool :=
  utf8.ValidString (CallbackID r)
  && utf8.ValidString (Text r)
  && utf8.ValidString (URL r).

Definition ChatMember_valid (m : ChatMember) : bool :=
  User_valid (ChatMember_User m) && utf8.ValidString (ChatMember_Status m).

(** What [omitempty] makes of a keyboard: the empty slice is not written,
    and the field stays nil when read back. *)
Definition InlineKeyboardMarkup_read (m : InlineKeyboardMarkup)
  : InlineKeyboardMarkup :=
  match InlineKeyboard m with
  | Some [] => mkInlineKeyboardMarkup None
  | _ => m
  end.

(** ** The media entities

    The same for the entities that embed a file descriptor. *)

Section Media.

Import wire.

Definition File_valid (f : File) : bool :=
  utf8.ValidString (File_FileID f) && in_int64b (File_FileSize f).

Definition Photo_valid (p : Photo) : bool :=
  File_valid (Photo_File p)
  && in_int64b (Photo_Width p)
  && in_int64b (Photo_Height p)
  && utf8.ValidString (Photo_Caption p).

Definition Audio_valid (a : Audio) : bool :=
  File_valid (Audio_File a)
  && in_int64b (Audio_Duration a)
  && utf8.ValidString (Audio_Title a)
  && utf8.ValidString (Audio_Performer a)
  && utf8.ValidString (Audio_Mime a)
  && utf8.ValidString (Audio_Caption a).

Definition Voice_valid (v : Voice) : bool :=
  File_valid (Voice_File v)
  && in_int64b (Voice_Duration v)
  && utf8.ValidString (Voice_Mime v)
  && utf8.ValidString (Voice_Caption v).

Definition Document_valid (d : Document) : bool :=
  File_valid (Document_File d)
  && Photo_valid (Document_Preview d)
  && utf8.ValidString (Document_FileName d)
  && utf8.ValidString (Document_Mime d)
  && utf8.ValidString (Document_Caption d).

Definition Sticker_valid (s : Sticker) : bool :=
  File_valid (Sticker_File s)
  && in_int64b (Sticker_Width s)
  && in_int64b (Sticker_Height s)
  && Photo_valid (Sticker_Thumbnail s)
  && utf8.ValidString (Sticker_Emoji s).

Definition VideoNote_valid (n : VideoNote) : bool :=
  File_valid (VideoNote_File n)
  && in_int64b (VideoNote_Duration n)
  && Photo_valid (VideoNote_Thumbnail n).

(** The fields of a video that are written: all but the [Caption] of the
    embedded audio, which the [Caption] of the video shadows. *)
Definition Video_valid (v : Video) : bool :=
  File_valid (Audio_File (Video_Audio v))
  && in_int64b (Audio_Duration (Video_Audio v))
  && utf8.ValidString (Audio_Title (Video_Audio v))
  && utf8.ValidString (Audio_Performer (Video_Audio v))
  && utf8.ValidString (Audio_Mime (Video_Audio v))
  && in_int64b (Video_Width v)
  && in_int64b (Video_Height v)
  && utf8.ValidString (Video_Caption v)
  && Photo_valid (Video_Thumbnail v).

(** A video as it is read back: the [Caption] of the embedded audio is
    empty, every other field is as it was. *)
Definition Video_read (v : Video) : Video :=
  mkVideo
    (mkAudio (Audio_File (Video_Audio v)) (Audio_Duration (Video_Audio v))
       (Audio_Title (Video_Audio v)) (Audio_Performer (Video_Audio v))
       (Audio_Mime (Video_Audio v)) "")
    (Video_Width v) (Video_Height v) (Video_Caption v) (Video_Thumbnail v).

Definition UserProfilePhotos_valid (p : UserProfilePhotos) : bool :=
  in_int64b (UserProfilePhotos_Count p)
  && slice_valid (slice_valid Photo_valid) (UserProfilePhotos_Photos p).

End Media.

(** ** Sample values *)

(** A video whose embedded audio carries a caption of its own. *)
Definition captioned_video : wire.Video :=
  wire.mkVideo
    (wire.mkAudio (wire.mkFile "BAADAgAD" 1024) 3 "" "" "video/mp4" "intro")
    640 480 ""
    (wire.mkPhoto (wire.mkFile "AAQCABMq" 512) 90 67 "").

(** The same video as it is read back. *)
Definition captioned_video_read : wire.Video :=
  wire.mkVideo
    (wire.mkAudio (wire.mkFile "BAADAgAD" 1024) 3 "" "" "video/mp4" "")
    640 480 ""
    (wire.mkPhoto (wire.mkFile "AAQCABMq" 512) 90 67 "").

(** A document with its preview, a set of profile photos, and an update
    that carries a callback. *)
Definition sample_document : wire.Document :=
  wire.mkDocument (wire.mkFile "BQADAgAD" 20480)
    (wire.mkPhoto (wire.mkFile "AAQCABMq" 512) 90 67 "")
    "report.pdf" "application/pdf" "Q3".

Definition sample_photos : wire.UserProfilePhotos :=
  wire.mkUserProfilePhotos 2
    (Some [Some [wire.mkPhoto (wire.mkFile "AgADAgAD" 1024) 160 160 "";
                 wire.mkPhoto (wire.mkFile "AgADAgAE" 4096) 320 320 ""];
           Some []; None]).

Definition sample_update : Update Chat User :=
  mkUpdate 42 None
    (Some (mkCallback "abc123" (Some (mkUser 7 "Ada" "" "ada")) None ""
             "vote:1"))
    None.

(** The callback of a button press. *)
Definition sample_callback : Callback Chat :=
  mkCallback "abc123" None None "" "vote:1".

(** The key [username] written with the long s (U+017F), and the key
    [callback_query] written with the Kelvin sign (U+212A). *)
Definition long_s_key : string :=
  "u" ++ String (ascii_of_byte 197) (String (ascii_of_byte 191) "ername").

Definition kelvin_key : string :=
  "callbac"
  ++ String (ascii_of_byte 226)
       (String (ascii_of_byte 132) (String (ascii_of_byte 170) "_query")).

(** A chat whose title is the single byte 0xFF, which is not UTF-8. *)
Definition latin1_chat : Chat :=
  mkChat 1 "group" (String (ascii_of_byte 255) "") "" "" "".

(** ** Vocabulary of the further properties *)

Section Further.

Import json wire.

(** ** The shape of a numeric destination token *)

Definition isDigit (c : ascii) : bool := (48 <=? byte c) && (byte c <=? 57).

Fixpoint allDigits (s : string) : bool :=
  match s with
  | EmptyString => true
  | String c s' => isDigit c && allDigits s'
  end.

(** An optional minus sign, then one decimal digit or more. *)
Definition numeric (s : string) : bool :=
  match s with
  | EmptyString => false
  | String c r =>
      if Ascii.eqb c "-" then negb (String.eqb r "") && allDigits r
      else allDigits s
  end.

(** ** Members of an encoded struct *)

(** A string member that [omitempty] drops when the string is empty. *)
Definition optionalString (key s : string) : list (string * json.Value) :=
  if String.eqb s "" then [] else [(key, json.Str (json.stringValue s))].

(** A boolean member that [omitempty] drops when it is false. *)
Definition optionalBool (key : string) (b : bool)
  : list (string * json.Value) :=
  if b then [(key, json.Bool true)] else [].

(** ** Entities as they are read back

    Every string as the encoder writes it. *)

Definition User_read (u : User) : User :=
  mkUser (User_ID u) (json.stringValue (User_FirstName u))
    (json.stringValue (User_LastName u)) (json.stringValue (User_Username u)).

Definition Chat_read (c : Chat) : Chat :=
  mkChat (Chat_ID c) (json.stringValue (Chat_Type c))
    (json.stringValue (Chat_Title c)) (json.stringValue (Chat_FirstName c))
    (json.stringValue (Chat_LastName c)) (json.stringValue (Chat_Username c)).

(** The first field of a struct is an integer, and no other field shares
    its place. *)
Definition integerFirst (fields : list json.field) : Prop :=
  forall f, In f fields ->
    (json.index f = [0%nat] /\ (json.typ f = json.TInt \/ json.typ f = json.TInt64))
    \/ (exists k, json.index f = [S k]).

(** ** Values behind the pointers of the envelope

    [Message] and [Query] are declared elsewhere; a value of such a type is
    faithful when it is a struct that is encoded and decoded back to
    itself. *)

Definition faithful {A : Type} `{json.Entity A} (a : A) : Prop :=
  (exists sfs, json.typeOf A = json.TStruct sfs)
  /\ (exists vs, json.toVal a = json.VStruct vs)
  /\ json.decode (json.encode (json.typeOf A) (json.toVal a))
       (json.typeOf A) (json.zero (json.typeOf A))
     = Some (json.toVal a)
  /\ json.ofVal (json.toVal a) = Some a.

Definition Callback_ok {Message : Type} `{json.Entity Message}
  (c : Callback Message) : Prop :=
  utf8.ValidString (Callback_ID c) = true
  /\ utf8.ValidString (Callback_MessageID c) = true
  /\ utf8.ValidString (Callback_Data c) = true
  /\ (forall u, Callback_Sender c = Some u -> User_valid u = true)
  /\ (forall m, Callback_Message c = Some m -> faithful m).

Definition Update_ok {Message Query : Type}
  `{json.Entity Message} `{json.Entity Query} (u : Update Message Query)
  : Prop :=
  in_int64 (Update_ID u)
  /\ (forall m, Update_Payload u = Some m -> faithful m)
  /\ (forall c, Update_Callback u = Some c -> Callback_ok c)
  /\ (forall q, Update_Query u = Some q -> faithful q).

(** ** Keys *)

(** The keys of a chat, folded. *)
Definition Chat_keys : list string :=
  ["ID"; "TYPE"; "TITLE"; "FIRST_NAME"; "LAST_NAME"; "USERNAME"].

Definition Chat_key (key : string) : bool :=
  existsb (String.eqb (json.foldName key)) Chat_keys.

(** ** Envelopes as they arrive

    An inbound update carries its identifier and the payloads it has; a
    payload it does not have is absent, not [null]. *)

Definition present {A : Type} `{json.Entity A} (key : string) (p : option A)
  : list (string * json.Value) :=
  match p with
  | Some a => [(key, json.Marshal a)]
  | None => []
  end.

Definition envelope {Message Query : Type}
  `{json.Entity Message} `{json.Entity Query} (u : Update Message Query)
  : json.Value :=
  json.Object
    (("update_id", json.Number (strconv.FormatInt (Update_ID u) 10))
       :: present "message" (Update_Payload u)
       ++ present "callback_query" (Update_Callback u)
       ++ present "inline_query" (Update_Query u)).

(** ** Rows of a keyboard on the wire *)

Definition rowValue (row : option (list InlineButton)) : json.Value :=
  match row with
  | None => json.Null
  | Some buttons => json.Array (map json.Marshal buttons)
  end.

End Further.

(* ================================================================== *)
(** * Part II: properties *)
(* ================================================================== *)

(** ** Checking a decidable property on an initial segment of [Z] *)

Lemma forallb_range (f : Z -> bool) (n : nat) :
  forallb f (map Z.of_nat (seq 0 n)) = true ->
  forall i, 0 <= i < Z.of_nat n -> f i = true.
Proof.
  intros H i Hi.
  rewrite forallb_forall in H. apply H.
  apply in_map_iff. exists (Z.to_nat i). split.
  - lia.
  - apply in_seq. lia.
Qed.

(** ** Decimal digits *)

Ltac digit_cases d H :=
  assert (d = 0 \/ d = 1 \/ d = 2 \/ d = 3 \/ d = 4 \/ d = 5 \/ d = 6 \/
          d = 7 \/ d = 8 \/ d = 9) as H by lia;
  repeat (destruct H as [H | H]); subst d.

Lemma string_of_cons_digit d u :
  0 <= d < 10 ->
  NilEmpty.string_of_uint (cons_digit d u)
  = String (digit_char d) (NilEmpty.string_of_uint u).
Proof.
  intros Hd. digit_cases d H; reflexivity.
Qed.

Lemma of_lu_cons_digit d u :
  0 <= d < 10 ->
  Unsigned.of_lu (cons_digit d u) = (Z.to_N d + 10 * Unsigned.of_lu u)%N.
Proof.
  intros Hd. digit_cases d H; cbn [cons_digit Unsigned.of_lu]; lia.
Qed.

Lemma nztail_cons_digit d u :
  0 <= d < 10 -> nztail u = u -> u <> Decimal.Nil ->
  nztail (cons_digit d u) = cons_digit d u.
Proof.
  intros Hd Hu Hn.
  digit_cases d H; cbn [cons_digit nztail]; rewrite Hu; try reflexivity.
  destruct u; congruence.
Qed.

Lemma cons_digit_nonnil d u : cons_digit d u <> Decimal.Nil.
Proof.
  unfold cons_digit.
  repeat match goal with
         | |- context [match ?x with _ => _ end] => destruct x
         end; discriminate.
Qed.

Lemma nztail_single d :
  0 < d < 10 -> nztail (cons_digit d Decimal.Nil) = cons_digit d Decimal.Nil.
Proof.
  intros Hd.
  assert (0 <= d - 1 < 9) as Hd' by lia.
  digit_cases d H; try lia; reflexivity.
Qed.

Lemma of_lu_to_lu (n : N) : Unsigned.of_lu (Unsigned.to_lu n) = n.
Proof.
  rewrite <- Unsigned.of_lu_rev.
  destruct n as [|p]; [reflexivity|].
  exact (DecimalPos.Unsigned.of_to p).
Qed.

Lemma to_lu_normal (n : N) :
  (0 < n)%N ->
  nztail (Unsigned.to_lu n) = Unsigned.to_lu n /\ Unsigned.to_lu n <> Decimal.Nil.
Proof.
  intros Hn.
  pose proof (Unsigned.to_of_lu (Unsigned.to_lu n)) as H.
  rewrite of_lu_to_lu in H. unfold lnorm in H.
  destruct (nztail (Unsigned.to_lu n)) eqn:E;
    try (split; [congruence | rewrite H; discriminate]).
  exfalso.
  pose proof (of_lu_to_lu n) as H'. rewrite H in H'. cbn in H'. lia.
Qed.

Lemma to_lu_unique (d : Decimal.uint) (n : N) :
  Unsigned.of_lu d = n -> nztail d = d -> d <> Decimal.Nil ->
  Unsigned.to_lu n = d.
Proof.
  intros Hv Ht Hn. subst n.
  rewrite Unsigned.to_of_lu. unfold lnorm. rewrite Ht.
  destruct d; congruence.
Qed.

Lemma zlu_small u : 0 < u < 10 -> zlu u = cons_digit u Decimal.Nil.
Proof.
  intros Hu. unfold zlu. apply to_lu_unique.
  - rewrite of_lu_cons_digit by lia. cbn. lia.
  - apply nztail_single; lia.
  - apply cons_digit_nonnil.
Qed.

Lemma zlu_zero : zlu 0 = Decimal.D0 Decimal.Nil.
Proof. reflexivity. Qed.

Lemma zlu_step u :
  10 <= u -> zlu u = cons_digit (u mod 10) (zlu (u / 10)).
Proof.
  intros Hu. unfold zlu.
  assert (0 <= u mod 10 < 10) as Hm by (apply Z.mod_pos_bound; lia).
  assert (0 < u / 10) as Hq by (apply Z.div_str_pos; lia).
  destruct (to_lu_normal (Z.to_N (u / 10))) as [Ht Hn]; [lia|].
  apply to_lu_unique.
  - rewrite of_lu_cons_digit by lia. rewrite of_lu_to_lu.
    pose proof (Z.div_mod u 10). lia.
  - apply nztail_cons_digit; assumption.
  - apply cons_digit_nonnil.
Qed.

(** ** [strconv.FormatInt] in base 10 is the decimal string form *)

Lemma smallsString_digits k :
  0 <= k < 100 ->
  byteAt strconv.smallsString (k * 2) = digit_char (k / 10) /\
  byteAt strconv.smallsString (k * 2 + 1) = digit_char (k mod 10).
Proof.
  intros Hk.
  pose proof (forallb_range
    (fun k => Ascii.eqb (byteAt strconv.smallsString (k * 2)) (digit_char (k / 10))
              && Ascii.eqb (byteAt strconv.smallsString (k * 2 + 1))
                   (digit_char (k mod 10)))
    100 eq_refl k Hk) as H.
  cbv beta in H. apply andb_true_iff in H. destruct H as [H1 H2].
  apply Ascii.eqb_eq in H1, H2. split; assumption.
Qed.

Lemma revapp_cons_digit x y d :
  Decimal.revapp (cons_digit x y) d = Decimal.revapp y (cons_digit x d).
Proof.
  unfold cons_digit.
  repeat match goal with
         | |- context [match ?x with _ => _ end] => destruct x
         end; reflexivity.
Qed.

Lemma formatTail_spec us d :
  0 <= us < 100 ->
  strconv.formatTail us (NilEmpty.string_of_uint d)
  = NilEmpty.string_of_uint (Decimal.revapp (zlu us) d).
Proof.
  intros Hus. unfold strconv.formatTail.
  destruct (smallsString_digits us Hus) as [Ht Hu].
  cbv zeta. rewrite Ht, Hu.
  destruct (Z.leb_spec 10 us) as [Hge | Hlt].
  - assert (0 < us / 10 < 10) as Hq.
    { split; [apply Z.div_str_pos; lia | apply Z.div_lt_upper_bound; lia]. }
    assert (0 <= us mod 10 < 10) as Hm by (apply Z.mod_pos_bound; lia).
    rewrite zlu_step by lia. rewrite (zlu_small (us / 10)) by lia.
    rewrite !revapp_cons_digit.
    change (Decimal.revapp Decimal.Nil ?x) with x.
    rewrite !string_of_cons_digit by lia. reflexivity.
  - rewrite Z.mod_small by lia.
    destruct (Z.eq_dec us 0) as [-> | Hnz]; [reflexivity|].
    rewrite zlu_small by lia.
    rewrite revapp_cons_digit.
    change (Decimal.revapp Decimal.Nil ?x) with x.
    rewrite string_of_cons_digit by lia. reflexivity.
Qed.

Lemma formatLoop100_spec fuel : forall u d,
  0 <= u < 100 ^ Z.of_nat fuel ->
  let '(us, a) := strconv.formatLoop100 fuel u (NilEmpty.string_of_uint d) in
  strconv.formatTail us a = NilEmpty.string_of_uint (Decimal.revapp (zlu u) d).
Proof.
  induction fuel as [|fuel IH]; intros u d Hu.
  - cbn [strconv.formatLoop100]. apply formatTail_spec.
    change (100 ^ Z.of_nat 0) with 1 in Hu. lia.
  - cbn [strconv.formatLoop100].
    destruct (Z.leb_spec 100 u) as [Hge | Hlt].
    + assert (0 <= u mod 100 < 100) as Hm by (apply Z.mod_pos_bound; lia).
      destruct (smallsString_digits (u mod 100) Hm) as [Ht Hl].
      cbv zeta. rewrite Ht, Hl.
      assert (0 <= u mod 100 / 10 < 10) as Hd1.
      { split; [apply Z.div_pos; lia | apply Z.div_lt_upper_bound; lia]. }
      assert (0 <= (u mod 100) mod 10 < 10) as Hd0
        by (apply Z.mod_pos_bound; lia).
      rewrite <- (string_of_cons_digit ((u mod 100) mod 10)) by lia.
      rewrite <- (string_of_cons_digit (u mod 100 / 10)) by lia.
      assert (0 <= u / 100 < 100 ^ Z.of_nat fuel) as Hq.
      { split; [apply Z.div_pos; lia|].
        apply Z.div_lt_upper_bound; [lia|].
        rewrite Nat2Z.inj_succ, Z.pow_succ_r in Hu by lia. lia. }
      specialize (IH (u / 100)
        (cons_digit (u mod 100 / 10) (cons_digit ((u mod 100) mod 10) d)) Hq).
      destruct (strconv.formatLoop100 fuel (u / 100) _) as [us a].
      rewrite IH.
      assert (10 <= u / 10) as Hu10.
      { apply Z.div_le_lower_bound; lia. }
      rewrite (zlu_step u) by lia. rewrite (zlu_step (u / 10)) by lia.
      rewrite !revapp_cons_digit.
      replace (u / 10 / 10) with (u / 100)
        by (rewrite Z.div_div by lia; reflexivity).
      replace (u mod 100 mod 10) with (u mod 10).
      2:{ pose proof (Z.div_mod u 100). pose proof (Z.div_mod u 10).
          pose proof (Z.div_mod (u mod 100) 10).
          pose proof (Z.mod_pos_bound u 10). lia. }
      replace (u mod 100 / 10) with ((u / 10) mod 10).
      2:{ pose proof (Z.div_mod u 100). pose proof (Z.div_mod u 10).
          pose proof (Z.div_mod (u mod 100) 10).
          pose proof (Z.div_mod (u / 10) 10).
          pose proof (Z.mod_pos_bound u 10).
          pose proof (Z.mod_pos_bound (u / 10) 10).
          pose proof (Z.div_div u 10 10). lia. }
      reflexivity.
    + apply formatTail_spec. lia.
Qed.

Lemma formatBits_base10 (u : Z) (neg : bool) :
  strconv.formatBits u 10 neg
  = let u' := if neg then uint64 (- u) else u in
    let a := (let '(us, a) := strconv.formatLoop100 10 u' "" in strconv.formatTail us a) in
    if neg then String "-" a else a.
Proof.
  unfold strconv.formatBits. cbn [Z.eqb Pos.eqb].
  cbv zeta. destruct (strconv.formatLoop100 10 _ ""); reflexivity.
Qed.

Lemma format_unsigned (u : Z) :
  0 < u < 2 ^ 64 ->
  (let '(us, a) := strconv.formatLoop100 10 u "" in strconv.formatTail us a)
  = NilZero.string_of_uint (N.to_uint (Z.to_N u)).
Proof.
  intros Hu.
  assert (0 <= u < 100 ^ Z.of_nat 10) as Hb.
  { change (100 ^ Z.of_nat 10) with 100000000000000000000.
    change (2 ^ 64) with 18446744073709551616 in Hu. lia. }
  pose proof (formatLoop100_spec 10 u Decimal.Nil Hb) as H.
  change (NilEmpty.string_of_uint Decimal.Nil) with "" in H.
  destruct (strconv.formatLoop100 10 u "") as [us a]. rewrite H.
  unfold zlu. destruct (Z.to_N u) as [|p] eqn:E; [lia|].
  change (Decimal.revapp (Unsigned.to_lu (N.pos p)) Decimal.Nil)
    with (Pos.to_uint p).
  change (N.to_uint (N.pos p)) with (Pos.to_uint p).
  unfold NilZero.string_of_uint.
  pose proof (Unsigned.to_uint_nonnil p) as Hn.
  destruct (Pos.to_uint p); congruence.
Qed.

Lemma small_decimal (i : Z) :
  0 <= i < 100 -> strconv.small i = decimal_string i.
Proof.
  intros Hi.
  apply String.eqb_eq.
  exact (forallb_range
           (fun i => String.eqb (strconv.small i) (decimal_string i))
           100 eq_refl i Hi).
Qed.

(** [FormatInt(i, 10)] prints every [int64] the way the Standard Library
    prints the integer. *)
Lemma FormatInt_decimal (i : Z) :
  in_int64 i -> strconv.FormatInt i 10 = decimal_string i.
Proof.
  unfold in_int64, minInt64, maxInt64. intros Hi.
  change (2 ^ 63) with 9223372036854775808 in Hi.
  unfold strconv.FormatInt, strconv.nSmalls.
  destruct (Z.leb_spec 0 i) as [Hnn | Hneg]; cbn [andb].
  - destruct (Z.ltb_spec i 100) as [Hs | Hl]; cbn [andb Z.eqb Pos.eqb].
    + apply small_decimal. lia.
    + rewrite formatBits_base10.
      assert ((i <? 0) = false) as -> by (apply Z.ltb_ge; lia).
      cbv zeta. unfold uint64.
      rewrite Z.mod_small
        by (change (2 ^ 64) with 18446744073709551616; lia).
      rewrite format_unsigned
        by (change (2 ^ 64) with 18446744073709551616; lia).
      unfold decimal_string. destruct i as [|p|p]; try lia. reflexivity.
  - rewrite formatBits_base10.
    assert ((i <? 0) = true) as -> by (apply Z.ltb_lt; lia).
    cbv zeta.
    assert (uint64 (- uint64 i) = - i) as ->.
    { unfold uint64. change (2 ^ 64) with 18446744073709551616.
      assert (i mod 18446744073709551616 = i + 18446744073709551616) as ->.
      { symmetry. apply (Z.mod_unique _ _ (-1)); lia. }
      symmetry. apply (Z.mod_unique _ _ (-1)); lia. }
    rewrite format_unsigned
      by (change (2 ^ 64) with 18446744073709551616; lia).
    unfold decimal_string. destruct i as [|p|p]; try lia. reflexivity.
Qed.

(** A few values, computed. *)
Example FormatInt_examples :
  strconv.FormatInt 0 10 = "0"
  /\ strconv.FormatInt 7 10 = "7"
  /\ strconv.FormatInt 42 10 = "42"
  /\ strconv.FormatInt 100 10 = "100"
  /\ strconv.FormatInt (-1001234567890) 10 = "-1001234567890"
  /\ strconv.FormatInt maxInt64 10 = "9223372036854775807"
  /\ strconv.FormatInt minInt64 10 = "-9223372036854775808"
  /\ strconv.FormatInt 255 16 = "ff"
  /\ strconv.FormatInt (-5) 2 = "-101".
Proof. vm_compute. repeat split. Qed.

Example ParseInt_examples :
  strconv.ParseInt "-9223372036854775808" = Some minInt64
  /\ strconv.ParseInt "9223372036854775808" = None
  /\ strconv.ParseInt "+15" = Some 15
  /\ strconv.ParseInt "1.5" = None
  /\ strconv.ParseInt "" = None
  /\ strconv.ParseInt "-" = None.
Proof. vm_compute. repeat split. Qed.

(** ** [strconv.ParseInt] reads back what [strconv.FormatInt] writes *)

Lemma byte_digit_char k : 0 <= k < 10 -> byte (digit_char k) = 48 + k.
Proof. intros Hk. digit_cases k H; reflexivity. Qed.

Lemma parseUintLoop_digit k s n :
  0 <= k < 10 -> 0 <= n -> n * 10 + k < 2 ^ 64 ->
  strconv.parseUintLoop (String (digit_char k) s) n
  = strconv.parseUintLoop s (n * 10 + k).
Proof.
  intros Hk Hn Hb. cbn [strconv.parseUintLoop].
  rewrite byte_digit_char by assumption.
  change (2 ^ 64) with 18446744073709551616 in Hb.
  replace (48 <=? 48 + k) with true by (symmetry; apply Z.leb_le; lia).
  replace (48 + k <=? 57) with true by (symmetry; apply Z.leb_le; lia).
  cbn [andb]. cbv zeta.
  change (strconv.maxUint64 / 10 + 1) with 1844674407370955162.
  replace (1844674407370955162 <=? n) with false
    by (symmetry; apply Z.leb_gt; lia).
  unfold uint64, strconv.maxUint64.
  change (2 ^ 64) with 18446744073709551616.
  rewrite (Z.mod_small (n * 10)) by lia.
  replace (48 + k - 48) with k by lia.
  rewrite (Z.mod_small (n * 10 + k)) by lia.
  replace (n * 10 + k <? n * 10) with false by (symmetry; apply Z.ltb_ge; lia).
  replace (18446744073709551616 - 1 <? n * 10 + k) with false
    by (symmetry; apply Z.ltb_ge; lia).
  reflexivity.
Qed.

Lemma parseUintLoop_digits fuel : forall u d,
  0 <= u < 10 ^ Z.of_nat fuel -> u < 2 ^ 64 ->
  strconv.parseUintLoop (NilEmpty.string_of_uint (Decimal.revapp (zlu u) d)) 0
  = strconv.parseUintLoop (NilEmpty.string_of_uint d) u.
Proof.
  induction fuel as [|fuel IH]; intros u d Hu Hb.
  - change (10 ^ Z.of_nat 0) with 1 in Hu.
    assert (u = 0) as -> by lia.
    rewrite zlu_zero. cbn [Decimal.revapp].
    change (Decimal.D0 d) with (cons_digit 0 d).
    rewrite string_of_cons_digit, parseUintLoop_digit by (cbn; lia).
    reflexivity.
  - destruct (Z_lt_le_dec u 10) as [Hlt | Hge].
    + destruct (Z.eq_dec u 0) as [-> | Hnz].
      * rewrite zlu_zero. cbn [Decimal.revapp].
        change (Decimal.D0 d) with (cons_digit 0 d).
        rewrite string_of_cons_digit, parseUintLoop_digit by (cbn; lia).
        reflexivity.
      * rewrite zlu_small, revapp_cons_digit by lia.
        cbn [Decimal.revapp].
        rewrite string_of_cons_digit, parseUintLoop_digit by lia.
        reflexivity.
    + assert (0 <= u mod 10 < 10) as Hm by (apply Z.mod_pos_bound; lia).
      assert (0 <= u / 10 < 10 ^ Z.of_nat fuel) as Hq.
      { split; [apply Z.div_pos; lia|].
        apply Z.div_lt_upper_bound; [lia|].
        rewrite Nat2Z.inj_succ, Z.pow_succ_r in Hu by lia. lia. }
      pose proof (Z.div_mod u 10) as Hdm.
      rewrite zlu_step, revapp_cons_digit by lia.
      rewrite IH by lia.
      rewrite string_of_cons_digit, parseUintLoop_digit by lia.
      f_equal. lia.
Qed.

Lemma revapp_zlu_head fuel : forall u d,
  0 <= u < 10 ^ Z.of_nat fuel ->
  exists k d', 0 <= k < 10 /\ Decimal.revapp (zlu u) d = cons_digit k d'.
Proof.
  induction fuel as [|fuel IH]; intros u d Hu.
  - change (10 ^ Z.of_nat 0) with 1 in Hu.
    assert (u = 0) as -> by lia.
    exists 0, d. split; [lia | reflexivity].
  - destruct (Z_lt_le_dec u 10) as [Hlt | Hge].
    + destruct (Z.eq_dec u 0) as [-> | Hnz].
      * exists 0, d. split; [lia | reflexivity].
      * exists u, d. split; [lia|].
        rewrite zlu_small, revapp_cons_digit by lia. reflexivity.
    + rewrite zlu_step, revapp_cons_digit by lia.
      apply IH. split; [apply Z.div_pos; lia|].
      apply Z.div_lt_upper_bound; [lia|].
      rewrite Nat2Z.inj_succ, Z.pow_succ_r in Hu by lia. lia.
Qed.

Lemma ParseUint_digits u :
  0 <= u < 2 ^ 64 ->
  strconv.ParseUint (digits_of u) = Some u
  /\ exists k s, 0 <= k < 10 /\ digits_of u = String (digit_char k) s.
Proof.
  intros Hu.
  assert (0 <= u < 10 ^ Z.of_nat 20) as Hb.
  { change (10 ^ Z.of_nat 20) with 100000000000000000000.
    change (2 ^ 64) with 18446744073709551616 in Hu. lia. }
  destruct (revapp_zlu_head 20 u Decimal.Nil Hb) as (k & d' & Hk & Hd).
  assert (digits_of u = String (digit_char k) (NilEmpty.string_of_uint d'))
    as Hs.
  { unfold digits_of. rewrite Hd. apply string_of_cons_digit. exact Hk. }
  split.
  - unfold strconv.ParseUint. rewrite Hs. rewrite <- Hs.
    unfold digits_of. rewrite (parseUintLoop_digits 20) by lia.
    reflexivity.
  - exists k, (NilEmpty.string_of_uint d'). split; assumption.
Qed.

Lemma decimal_string_digits (i : Z) :
  decimal_string i
  = if i <? 0 then String "-" (digits_of (- i)) else digits_of i.
Proof.
  unfold decimal_string, digits_of, zlu.
  destruct i as [|p|p]; [reflexivity| |].
  - cbn [Z.ltb Z.compare Z.to_N].
    change (Decimal.revapp (Unsigned.to_lu (N.pos p)) Decimal.Nil)
      with (Pos.to_uint p).
    cbn [Z.to_int NilZero.string_of_int]. unfold NilZero.string_of_uint.
    pose proof (Unsigned.to_uint_nonnil p).
    destruct (Pos.to_uint p); congruence.
  - cbn [Z.ltb Z.compare Z.opp Z.to_N].
    change (Decimal.revapp (Unsigned.to_lu (N.pos p)) Decimal.Nil)
      with (Pos.to_uint p).
    cbn [Z.to_int NilZero.string_of_int]. unfold NilZero.string_of_uint.
    pose proof (Unsigned.to_uint_nonnil p).
    destruct (Pos.to_uint p); congruence.
Qed.

Lemma ParseInt_FormatInt (i : Z) :
  in_int64 i -> strconv.ParseInt (strconv.FormatInt i 10) = Some i.
Proof.
  intros Hi. rewrite FormatInt_decimal by assumption.
  rewrite decimal_string_digits.
  unfold in_int64, minInt64, maxInt64 in Hi.
  change (2 ^ 63) with 9223372036854775808 in Hi.
  destruct (Z.ltb_spec i 0) as [Hneg | Hnn].
  - destruct (ParseUint_digits (- i)) as [Hp _].
    { change (2 ^ 64) with 18446744073709551616. lia. }
    unfold strconv.ParseInt.
    change (byte "-" =? 45) with true. cbv zeta.
    change (byte "-" =? 43) with false. cbn [orb andb negb].
    rewrite Hp. change (2 ^ 63) with 9223372036854775808.
    replace (9223372036854775808 <? - i) with false
      by (symmetry; apply Z.ltb_ge; lia).
    f_equal. lia.
  - destruct (ParseUint_digits i) as [Hp (k & s & Hk & Hs)].
    { change (2 ^ 64) with 18446744073709551616. lia. }
    rewrite Hs in *. unfold strconv.ParseInt.
    rewrite byte_digit_char by assumption.
    replace (48 + k =? 45) with false by (symmetry; apply Z.eqb_neq; lia).
    replace (48 + k =? 43) with false by (symmetry; apply Z.eqb_neq; lia).
    cbv zeta. cbn [orb andb negb]. rewrite Hp.
    change (2 ^ 63) with 9223372036854775808.
    replace (9223372036854775808 <=? i) with false
      by (symmetry; apply Z.leb_gt; lia).
    reflexivity.
Qed.

(** ** A valid UTF-8 string is encoded and read back unchanged *)

Lemma slice_drop (k : nat) : forall s,
  (k <= String.length s)%nat ->
  String.substring 0 k s ++ drop k s = s.
Proof.
  induction k as [|k IH]; intros s Hk.
  - destruct s; reflexivity.
  - destruct s as [|c s]; [cbn in Hk; lia|].
    cbn [String.substring drop String.append]. f_equal.
    apply IH. cbn in Hk. lia.
Qed.

Lemma drop_length (k : nat) : forall s,
  (String.length (drop k s) <= String.length s)%nat.
Proof.
  induction k as [|k IH]; intros s.
  - destruct s; cbn; lia.
  - destruct s as [|c s]; cbn [drop String.length]; [lia|].
    specialize (IH s). lia.
Qed.

Lemma first_class (b : Z) :
  128 <= b ->
  In (utf8.first b)
     [utf8.xx; utf8.s1; utf8.s2; utf8.s3; utf8.s4; utf8.s5; utf8.s6; utf8.s7].
Proof.
  intros Hb. unfold utf8.first.
  repeat match goal with
         | |- context [if ?c then _ else _] => destruct c eqn:?
         end; cbn; try tauto.
  apply Z.ltb_lt in Heqb0. lia.
Qed.

Lemma stringLoop_valid (f2 : nat) : forall (f1 : nat) (s : string),
  (String.length s <= f1)%nat -> (String.length s <= f2)%nat ->
  utf8.validLoop f1 s = true -> json.stringLoop f2 s = s.
Proof.
  induction f2 as [|f2 IH]; intros f1 s H1 H2 Hv.
  - destruct s; [reflexivity | cbn in H2; lia].
  - destruct s as [|b rest]; [reflexivity|].
    destruct f1 as [|f1]; [cbn in H1; lia|].
    cbn [String.length] in H1, H2.
    assert (forall k, (String.length (drop (S k) (String b rest)) <= f1)%nat)
      as Hd1 by (intros k; pose proof (drop_length k rest); cbn [drop]; lia).
    assert (forall k, (String.length (drop (S k) (String b rest)) <= f2)%nat)
      as Hd2 by (intros k; pose proof (drop_length k rest); cbn [drop]; lia).
    cbn [utf8.validLoop json.stringLoop] in *. cbv zeta in Hv.
    destruct (byte b <? utf8.RuneSelf) eqn:Hascii.
    + f_equal. apply (IH f1); [lia | lia | exact Hv].
    + unfold utf8.DecodeRuneInString. cbv zeta.
      change (byteAt (String b rest) 0) with b.
      replace (Z.of_nat (String.length (String b rest)) <? 1) with false
        by (symmetry; apply Z.ltb_ge; cbn [String.length]; lia).
      unfold utf8.RuneSelf in Hascii. apply Z.ltb_ge in Hascii.
      pose proof (first_class (byte b) Hascii) as Hx.
      remember (Z.of_nat (String.length (String b rest))) as n eqn:En.
      remember (byte (byteAt (String b rest) 1)) as c1 eqn:Ec1.
      remember (byte (byteAt (String b rest) 2)) as c2 eqn:Ec2.
      remember (byte (byteAt (String b rest) 3)) as c3 eqn:Ec3.
      assert (forall k, (2 <= k)%nat -> (n <? Z.of_nat k) = false ->
                slice (String b rest) 0 (Z.of_nat k)
                ++ drop k (String b rest) = String b rest) as Hsl.
      { intros k Hk Hn. apply Z.ltb_ge in Hn. unfold slice.
        rewrite Z.sub_0_r, Nat2Z.id. apply slice_drop. lia. }
      remember (byte b) as b0 eqn:Eb0.
      remember (String b rest) as s eqn:Es.
      cbn [In] in Hx.
      repeat (destruct Hx as [Hx | Hx];
              [rewrite <- Hx in Hv |- *; clear Hx|]); [..|contradiction].
      all: cbn -[drop slice String.append] in Hv |- *; try discriminate Hv.
      all: repeat match type of Hv with
                  | context [if ?c then _ else _] =>
                      destruct c eqn:?;
                      cbn -[drop slice String.append] in Hv |- *;
                      try discriminate Hv
                  end.
      all: rewrite ?andb_false_r.
      all: subst s.
      all: change (Pos.to_nat 2) with 2%nat; change (Pos.to_nat 3) with 3%nat;
        change (Pos.to_nat 4) with 4%nat.
      all: rewrite (IH f1 _ (Hd1 _) (Hd2 _) Hv).
      all: first [ apply (Hsl 2%nat); [lia | assumption]
                 | apply (Hsl 3%nat); [lia | assumption]
                 | apply (Hsl 4%nat); [lia | assumption] ].
Qed.

Lemma stringValue_valid (s : string) :
  utf8.ValidString s = true -> json.stringValue s = s.
Proof.
  intros Hv. unfold json.stringValue.
  apply (stringLoop_valid _ (String.length s)); [lia | lia | exact Hv].
Qed.

(** ** Round trips of the entities *)

Import json wire.

Lemma in_int64b_spec (z : Z) : in_int64b z = true -> in_int64 z.
Proof.
  unfold in_int64b, in_int64. intros H.
  apply andb_true_iff in H. destruct H as [H1 H2].
  apply Z.leb_le in H1, H2. lia.
Qed.

Ltac split_valid H :=
  repeat match type of H with
         | (_ && _) = true =>
             let H' := fresh "Hv" in
             apply andb_true_iff in H; destruct H as [H H']
         end;
  repeat match goal with
         | Hi : in_int64b _ = true |- _ => apply in_int64b_spec in Hi
         end.

Ltac roundtrip :=
  unfold Marshal, Unmarshal;
  cbv -[strconv.FormatInt json.stringValue strconv.ParseInt];
  rewrite ?ParseInt_FormatInt by assumption;
  rewrite ?stringValue_valid by assumption;
  reflexivity.

Lemma User_roundtrip (u : User) :
  User_valid u = true -> Unmarshal (Marshal u) = Some u.
Proof.
  destruct u as [id f l n]. unfold User_valid.
  cbn [User_ID User_FirstName User_LastName User_Username].
  intros H. split_valid H. roundtrip.
Qed.

Lemma Chat_roundtrip (c : Chat) :
  Chat_valid c = true -> Unmarshal (Marshal c) = Some c.
Proof.
  destruct c as [id ty t f l u]. unfold Chat_valid.
  cbn [Chat_ID Chat_Type Chat_Title Chat_FirstName Chat_LastName
       Chat_Username].
  intros H. split_valid H. roundtrip.
Qed.

Lemma Contact_roundtrip (c : Contact) :
  Contact_valid c = true -> Unmarshal (Marshal c) = Some c.
Proof.
  destruct c as [id p f l]. unfold Contact_valid.
  cbn [Contact_UserID Contact_PhoneNumber Contact_FirstName Contact_LastName].
  intros H. split_valid H. roundtrip.
Qed.

Lemma KeyboardButton_roundtrip (b : KeyboardButton) :
  KeyboardButton_valid b = true -> Unmarshal (Marshal b) = Some b.
Proof.
  destruct b as [t c l]. unfold KeyboardButton_valid.
  cbn [KeyboardButton_Text]. intros H.
  destruct c, l; roundtrip.
Qed.

Lemma InlineButton_roundtrip (b : InlineButton) :
  InlineButton_valid b = true -> Unmarshal (Marshal b) = Some b.
Proof.
  destruct b as [t u d q]. unfold InlineButton_valid.
  cbn [InlineButton_Text InlineButton_URL InlineButton_Data
       InlineButton_InlineQuery].
  intros H. split_valid H.
  destruct u, d, q; roundtrip.
Qed.

Lemma CallbackResponse_roundtrip (r : CallbackResponse) :
  CallbackResponse_valid r = true -> Unmarshal (Marshal r) = Some r.
Proof.
  destruct r as [i t a u]. unfold CallbackResponse_valid.
  cbn [CallbackID Text URL].
  intros H. split_valid H.
  destruct t, a, u; roundtrip.
Qed.

Lemma ChatMember_roundtrip (m : ChatMember) :
  ChatMember_valid m = true -> Unmarshal (Marshal m) = Some m.
Proof.
  destruct m as [[id f l n] st]. unfold ChatMember_valid, User_valid.
  cbn [ChatMember_User ChatMember_Status User_ID User_FirstName
       User_LastName User_Username].
  intros H. split_valid H. roundtrip.
Qed.

(** Decoding is by key, exact or folded; keys without a field are skipped;
    a number that is no [int64] is an error. *)
Example Unmarshal_examples :
  Unmarshal (A := Chat)
    (Object [("ID", Number "12"); ("TYPE", Str "group"); ("photo", Null);
             ("title", Null)])
  = Some (mkChat 12 "group" "" "" "" "")
  /\ Unmarshal (A := Chat) (Object [("id", Number "1.5")]) = None
  /\ Unmarshal (A := Chat) (Object [("id", Number "9223372036854775808")])
     = None
  /\ Unmarshal (A := Chat) (Object [("id", Str "12")]) = None
  /\ Unmarshal (A := Chat) (Object [("id", Number "1"); ("id", Number "2")])
     = Some (mkChat 2 "" "" "" "" "")
  /\ Marshal (mkInlineButton "Open" "" "vote:1" "")
     = Object [("text", Str "Open"); ("callback_data", Str "vote:1")].
Proof. vm_compute. repeat split. Qed.

(** *** Slices *)

Lemma encode_slice (e : GoType) (l : list GoVal) :
  encode (TSlice e) (VSlice (Some l)) = Array (map (encode e) l).
Proof. reflexivity. Qed.

Lemma decode_array (e : GoType) (js : list Value) :
  decode (Array js) (TSlice e) (VSlice None)
  = match decodeElements (fun j x => decode j e x) (zero e) js [] with
    | Some xs => Some (VSlice (Some xs))
    | None => None
    end.
Proof. reflexivity. Qed.

Lemma decodeElements_fresh (dec : Value -> GoVal -> option GoVal)
  (enc : GoVal -> Value) (fresh : GoVal) (l : list GoVal) :
  (forall x, In x l -> dec (enc x) fresh = Some x) ->
  decodeElements dec fresh (map enc l) [] = Some l.
Proof.
  induction l as [|x l IH]; intros Hl; [reflexivity|].
  cbn [map decodeElements tl].
  rewrite (Hl x) by (left; reflexivity).
  rewrite IH by (intros y Hy; apply Hl; right; exact Hy).
  reflexivity.
Qed.

(** A slice comes back element by element; the nil slice is written as
    [null] and comes back nil. *)
Lemma slice_roundtrip (e : GoType) (l : option (list GoVal)) :
  (forall xs x, l = Some xs -> In x xs ->
                decode (encode e x) e (zero e) = Some x) ->
  decode (encode (TSlice e) (VSlice l)) (TSlice e) (VSlice None)
  = Some (VSlice l).
Proof.
  intros Hl. destruct l as [xs|]; [|reflexivity].
  rewrite encode_slice, decode_array.
  rewrite (decodeElements_fresh (fun j x => decode j e x) (encode e)).
  - reflexivity.
  - intros x Hx. exact (Hl xs x eq_refl Hx).
Qed.

Lemma sliceOf_sliceVal {A : Type} (f : A -> GoVal) (g : GoVal -> option A)
  (l : option (list A)) :
  (forall a, g (f a) = Some a) -> sliceOf g (sliceVal f l) = Some l.
Proof.
  intros Hgf. destruct l as [l|]; [|reflexivity].
  unfold sliceVal, sliceOf. cbn [option_map].
  assert (allSome (map g (map f l)) = Some l) as ->; [|reflexivity].
  induction l as [|a l IH]; [reflexivity|].
  cbn [map allSome]. rewrite Hgf, IH. reflexivity.
Qed.

Lemma InlineButton_value_roundtrip (b : InlineButton) :
  InlineButton_valid b = true ->
  decode (encode InlineButton_t (toVal b)) InlineButton_t (zero InlineButton_t)
  = Some (toVal b).
Proof.
  destruct b as [t u d q]. unfold InlineButton_valid.
  cbn [InlineButton_Text InlineButton_URL InlineButton_Data
       InlineButton_InlineQuery].
  intros H. split_valid H.
  destruct u, d, q;
    cbv -[strconv.FormatInt json.stringValue strconv.ParseInt];
    rewrite ?stringValue_valid by assumption; reflexivity.
Qed.

Lemma row_roundtrip (row : option (list InlineButton)) :
  slice_valid InlineButton_valid row = true ->
  decode (encode (TSlice InlineButton_t) (sliceVal toVal row))
    (TSlice InlineButton_t) (zero (TSlice InlineButton_t))
  = Some (sliceVal toVal row).
Proof.
  intros Hv. apply slice_roundtrip.
  intros xs x Hxs Hx.
  destruct row as [bs|]; [|discriminate Hxs].
  cbn [option_map slice_valid] in Hxs, Hv. injection Hxs as <-.
  apply in_map_iff in Hx. destruct Hx as (b & <- & Hb).
  apply InlineButton_value_roundtrip.
  rewrite forallb_forall in Hv. apply Hv. exact Hb.
Qed.

Lemma keyboard_roundtrip (k : option (list (option (list InlineButton)))) :
  slice_valid (slice_valid InlineButton_valid) k = true ->
  decode (encode (TSlice (TSlice InlineButton_t)) (sliceVal (sliceVal toVal) k))
    (TSlice (TSlice InlineButton_t)) (VSlice None)
  = Some (sliceVal (sliceVal toVal) k).
Proof.
  intros Hv. apply slice_roundtrip.
  intros xs x Hxs Hx.
  destruct k as [rows|]; [|discriminate Hxs].
  cbn [option_map slice_valid] in Hxs, Hv. injection Hxs as <-.
  apply in_map_iff in Hx. destruct Hx as (row & <- & Hrow).
  apply row_roundtrip.
  rewrite forallb_forall in Hv. apply Hv. exact Hrow.
Qed.

Lemma decode_object (ms : list (string * Value))
  (sfs : list (StructField GoType)) (cur : GoVal) :
  decode (Object ms) (TStruct sfs) cur
  = decodeMembers decode (typeFields (TStruct sfs)) ms cur.
Proof. reflexivity. Qed.

Lemma keyboard_field :
  findField (typeFields InlineKeyboardMarkup_t) "inline_keyboard"
  = Some (mkfield "inline_keyboard" true [0%nat]
            (TSlice (TSlice InlineButton_t)) true).
Proof. vm_compute. reflexivity. Qed.

Lemma keyboard_member (J : Value) (sub : GoVal) :
  decode J (TSlice (TSlice InlineButton_t)) (VSlice None) = Some sub ->
  decode (Object [("inline_keyboard", J)]) InlineKeyboardMarkup_t
    (zero InlineKeyboardMarkup_t)
  = Some (VStruct [sub]).
Proof.
  intros HJ. unfold InlineKeyboardMarkup_t at 1. rewrite decode_object.
  fold InlineKeyboardMarkup_t.
  cbn [decodeMembers fst snd]. rewrite keyboard_field.
  change (zero InlineKeyboardMarkup_t) with (VStruct [VSlice None]).
  cbn [index typ fieldByIndex nth_error]. rewrite HJ.
  reflexivity.
Qed.

Lemma InlineKeyboardMarkup_roundtrip (m : InlineKeyboardMarkup) :
  InlineKeyboardMarkup_valid m = true ->
  Unmarshal (Marshal m) = Some (InlineKeyboardMarkup_read m).
Proof.
  destruct m as [k]. unfold InlineKeyboardMarkup_valid, InlineKeyboardMarkup_read.
  cbn [InlineKeyboard]. intros Hv.
  destruct k as [[|r rs]|]; [reflexivity| |reflexivity].
  unfold Marshal, Unmarshal.
  change (encode (typeOf InlineKeyboardMarkup)
            (toVal (mkInlineKeyboardMarkup (Some (r :: rs)))))
    with (Object [("inline_keyboard",
                   encode (TSlice (TSlice InlineButton_t))
                     (sliceVal (sliceVal toVal) (Some (r :: rs))))]).
  change (typeOf InlineKeyboardMarkup) with InlineKeyboardMarkup_t.
  rewrite (keyboard_member _ _ (keyboard_roundtrip _ Hv)).
  cbn [ofVal InlineKeyboardMarkup_Entity].
  rewrite sliceOf_sliceVal; [reflexivity|].
  intros row. apply sliceOf_sliceVal.
  intros [t u d q]. reflexivity.
Qed.

(* ================================================================== *)
(** * Part III: the properties of the specification *)
(* ================================================================== *)

(** ** Destination tokens *)

Lemma Chat_Destination_eq (c : Chat) :
  Destination c
  = if String.eqb (Chat_Type c) "channel"
    then "@" ++ Chat_Username c
    else strconv.FormatInt (Chat_ID c) 10.
Proof.
  unfold Destination, Chat_Recipient, result, ChatMethods.Destination,
    bind, read, ret.
  cbv beta iota zeta.
  destruct (String.eqb (Chat_Type c) "channel"); reflexivity.
Qed.

Lemma IsGroupChat_eq (c : Chat) :
  IsGroupChat c = negb (String.eqb (Chat_Type c) "private").
Proof. reflexivity. Qed.

Lemma Destination_not_channel (c : Chat) :
  in_int64 (Chat_ID c) -> Chat_Type c <> "channel" ->
  Destination c = decimal_string (Chat_ID c).
Proof.
  intros Hn Hk. rewrite Chat_Destination_eq.
  apply String.eqb_neq in Hk. rewrite Hk.
  apply FormatInt_decimal. exact Hn.
Qed.

(** C1. For a chat of kind "channel" the destination token is "@" followed
    by the username of the chat; for a channel with an empty username it is
    the string "@" itself. The operation returns a plain string: there is no
    error to signal. *)
Theorem Chat_Destination_channel (c : Chat) :
  Chat_Type c = "channel" ->
  Destination c = "@" ++ Chat_Username c
  /\ (Chat_Username c = "" -> Destination c = "@").
Proof.
  intros Hk. rewrite Chat_Destination_eq, Hk. cbn [String.eqb].
  rewrite !Ascii.eqb_refl. split; [reflexivity|].
  intros ->. reflexivity.
Qed.

Lemma Chat_Destination_channel_witness :
  Destination (mkChat 555 "channel" "" "" "" "news") = "@news"
  /\ Destination (mkChat 555 "channel" "" "" "" "") = "@".
Proof.
  split.
  - exact (proj1 (Chat_Destination_channel
                    (mkChat 555 "channel" "" "" "" "news") eq_refl)).
  - exact (proj2 (Chat_Destination_channel
                    (mkChat 555 "channel" "" "" "" "") eq_refl) eq_refl).
Defined.

(** C2. For a chat of any kind other than "channel" with identifier [n],
    the destination token is the decimal string form of [n], whatever the
    username (and the other fields) of the chat. *)
Theorem Chat_Destination_decimal (n : Z) (kind : ChatType)
  (title first last username : string) :
  in_int64 n -> kind <> "channel" ->
  Destination (mkChat n kind title first last username) = decimal_string n.
Proof.
  intros Hn Hk.
  exact (Destination_not_channel (mkChat n kind title first last username)
           Hn Hk).
Qed.

Lemma Chat_Destination_decimal_witness :
  Destination (mkChat (-1001234567890) "supergroup" "" "" "" "news")
  = decimal_string (-1001234567890).
Proof.
  apply Chat_Destination_decimal.
  - unfold in_int64, minInt64, maxInt64. lia.
  - discriminate.
Defined.

(** C3. For a user with identifier [n] the destination token is the decimal
    string form of [n]; the operation is a total function of the user. *)
Theorem User_Destination_decimal (u : User) :
  in_int64 (User_ID u) -> Destination u = decimal_string (User_ID u).
Proof.
  intros Hn.
  change (Destination u) with (strconv.FormatInt (User_ID u) 10).
  apply FormatInt_decimal. exact Hn.
Qed.

Lemma User_Destination_decimal_witness :
  Destination (mkUser 42 "Ada" "" "ada") = decimal_string 42.
Proof.
  apply User_Destination_decimal.
  unfold in_int64, minInt64, maxInt64. cbn [User_ID]. lia.
Defined.

(** C4. [IsGroupChat] is false exactly for the kind "private" and true for
    every other kind, "group", "supergroup" and "channel" among them. *)
Theorem IsGroupChat_private_iff (c : Chat) :
  (IsGroupChat c = false <-> Chat_Type c = "private")
  /\ (IsGroupChat c = true <-> Chat_Type c <> "private")
  /\ (In (Chat_Type c) ["group"; "supergroup"; "channel"] ->
      IsGroupChat c = true).
Proof.
  rewrite IsGroupChat_eq.
  destruct (String.eqb_spec (Chat_Type c) "private") as [He | Hne];
    cbn [negb].
  - split; [|split].
    + split; intros _; [exact He | reflexivity].
    + split; [discriminate | intros Hne; contradiction].
    + rewrite He. cbn [In]. intros [H | [H | [H | []]]]; discriminate H.
  - split; [|split].
    + split; [discriminate | intros He; contradiction].
    + split; intros _; [exact Hne | reflexivity].
    + intros _. reflexivity.
Qed.

Lemma IsGroupChat_private_iff_witness :
  IsGroupChat (mkChat 7 "private" "" "Ada" "" "ada") = false
  /\ IsGroupChat (mkChat 555 "channel" "" "" "" "news") = true.
Proof.
  split.
  - apply (proj1 (IsGroupChat_private_iff _)). reflexivity.
  - apply (proj2 (proj2 (IsGroupChat_private_iff _))).
    cbn. right. right. left. reflexivity.
Defined.

(** C9. The kind is compared with the two constants only: for every kind
    string other than "channel", the empty string and any other string
    outside the documented four among them, the destination token is the
    decimal string of the identifier, and for every kind string other than
    "private" [IsGroupChat] is true. *)
Theorem Chat_kind_outside_set (c : Chat) :
  in_int64 (Chat_ID c) ->
  (Chat_Type c <> "channel" -> Destination c = decimal_string (Chat_ID c))
  /\ (Chat_Type c <> "private" -> IsGroupChat c = true)
  /\ (~ In (Chat_Type c) ["private"; "group"; "supergroup"; "channel"] ->
      Destination c = decimal_string (Chat_ID c) /\ IsGroupChat c = true).
Proof.
  intros Hn.
  assert (Chat_Type c <> "channel" ->
          Destination c = decimal_string (Chat_ID c)) as HD.
  { intros Hk. apply Destination_not_channel; assumption. }
  assert (Chat_Type c <> "private" -> IsGroupChat c = true) as HG.
  { intros Hk. rewrite IsGroupChat_eq. apply String.eqb_neq in Hk.
    rewrite Hk. reflexivity. }
  repeat split; try assumption.
  - apply HD. intros He. apply H. rewrite He. cbn. tauto.
  - apply HG. intros He. apply H. rewrite He. cbn. tauto.
Qed.

Lemma Chat_kind_outside_set_witness :
  Destination (mkChat (-42) "" "" "" "" "news") = decimal_string (-42)
  /\ IsGroupChat (mkChat (-42) "" "" "" "" "news") = true.
Proof.
  apply (proj2 (proj2 (Chat_kind_outside_set
                         (mkChat (-42) "" "" "" "" "news")
                         ltac:(unfold in_int64, minInt64, maxInt64;
                               cbn [Chat_ID]; lia)))).
  cbn. intros [H | [H | [H | [H | []]]]]; discriminate H.
Defined.

(** What a call returns, result and receiver. *)
Lemma User_Destination_call (u : User) :
  UserMethods.Destination u = (Destination u, u).
Proof. reflexivity. Qed.

Lemma Chat_Destination_call (c : Chat) :
  ChatMethods.Destination c = (Destination c, c).
Proof.
  unfold Destination, Chat_Recipient, result, ChatMethods.Destination,
    bind, read, ret.
  cbv beta iota zeta.
  destruct (String.eqb (Chat_Type c) "channel"); reflexivity.
Qed.

Lemma IsGroupChat_call (c : Chat) :
  ChatMethods.IsGroupChat c = (IsGroupChat c, c).
Proof. reflexivity. Qed.

Lemma twice_call {S A : Type} (m : Method S A) (f : S -> A) (s : S) :
  (forall s, m s = (f s, s)) -> twice m s = ((f s, f s), s).
Proof.
  intros Hm. unfold twice, bind, ret. rewrite Hm, Hm. reflexivity.
Qed.

(** C10. [Destination] and [IsGroupChat] read their receiver and leave every
    field of it as it was; two calls in a row on the same receiver return
    the same result. *)
Theorem methods_pure (u : User) (c : Chat) :
  after UserMethods.Destination u = u
  /\ after ChatMethods.Destination c = c
  /\ after ChatMethods.IsGroupChat c = c
  /\ result (twice UserMethods.Destination) u = (Destination u, Destination u)
  /\ after (twice UserMethods.Destination) u = u
  /\ result (twice ChatMethods.Destination) c = (Destination c, Destination c)
  /\ after (twice ChatMethods.Destination) c = c
  /\ result (twice ChatMethods.IsGroupChat) c = (IsGroupChat c, IsGroupChat c)
  /\ after (twice ChatMethods.IsGroupChat) c = c.
Proof.
  unfold after, result.
  rewrite (twice_call _ _ u User_Destination_call).
  rewrite (twice_call _ _ c Chat_Destination_call).
  rewrite (twice_call _ _ c IsGroupChat_call).
  rewrite User_Destination_call, Chat_Destination_call, IsGroupChat_call.
  cbn [fst snd]. repeat split.
Qed.

(** ** The update envelope and the callback response *)

(** C5, as stated, fails in its last clause: [CallbackID] is a field the
    caller sets, in a struct literal or by assignment to a response already
    built, and the identifier the caller wrote, not the one of the
    callback, is what is sent. *)
Lemma CallbackID_set_by_caller :
  CallbackID
    (setCallbackID "zzz999"
       (buildCallbackResponse sample_callback "Thanks" true ""))
  = "zzz999"
  /\ Callback_ID sample_callback = "abc123"
  /\ CallbackID
       (setCallbackID "zzz999"
          (buildCallbackResponse sample_callback "Thanks" true ""))
     <> Callback_ID sample_callback
  /\ CallbackID (mkCallbackResponse "zzz999" "Thanks" true "")
     <> Callback_ID sample_callback
  /\ Marshal
       (setCallbackID "zzz999"
          (buildCallbackResponse sample_callback "Thanks" true ""))
     = Object [ ("callback_query_id", Str "zzz999"); ("text", Str "Thanks");
                ("show_alert", Bool true) ].
Proof.
  split; [reflexivity|]. split; [reflexivity|].
  split; [discriminate|]. split; [discriminate|].
  vm_compute. reflexivity.
Qed.

(** C5, amended. The response built for a callback carries the identifier
    of that callback, whatever text, alert flag and URL the caller supplies
    (so "abc123" for a callback "abc123"), and the caller's inputs are
    copied to the other fields; it is sent under the key
    [callback_query_id] with that identifier.  The field stays an ordinary
    one: assigned by the caller afterwards, it holds what the caller
    assigned, the other fields unchanged, and that is what is sent. *)
Theorem buildCallbackResponse_CallbackID {Message : Type}
  (c : Callback Message) (text : string) (showAlert : bool) (url : string) :
  CallbackID (buildCallbackResponse c text showAlert url) = Callback_ID c
  /\ Text (buildCallbackResponse c text showAlert url) = text
  /\ ShowAlert (buildCallbackResponse c text showAlert url) = showAlert
  /\ URL (buildCallbackResponse c text showAlert url) = url
  /\ (forall text' showAlert' url',
        CallbackID (buildCallbackResponse c text' showAlert' url')
        = CallbackID (buildCallbackResponse c text showAlert url))
  /\ (Callback_ID c = "abc123" ->
      CallbackID (buildCallbackResponse c text showAlert url) = "abc123")
  /\ Marshal (buildCallbackResponse c text showAlert url)
     = Object (("callback_query_id", Str (stringValue (Callback_ID c)))
                 :: optionalString "text" text
                 ++ optionalBool "show_alert" showAlert
                 ++ optionalString "url" url)%list
  /\ (forall id : string,
        setCallbackID id (buildCallbackResponse c text showAlert url)
        = mkCallbackResponse id text showAlert url
        /\ Marshal
             (setCallbackID id (buildCallbackResponse c text showAlert url))
           = Object (("callback_query_id", Str (stringValue id))
                       :: optionalString "text" text
                       ++ optionalBool "show_alert" showAlert
                       ++ optionalString "url" url)%list).
Proof.
  cbn [buildCallbackResponse setCallbackID CallbackID Text ShowAlert URL].
  split; [reflexivity|]. split; [reflexivity|]. split; [reflexivity|].
  split; [reflexivity|]. split; [reflexivity|].
  split; [intros H; exact H|].
  split; [|intros id; split; [reflexivity|]];
    destruct text, showAlert, url; reflexivity.
Qed.

Lemma buildCallbackResponse_CallbackID_witness :
  CallbackID
    (buildCallbackResponse (Message := Chat)
       (mkCallback "abc123" None None "" "vote:1") "Thanks" true "")
  = "abc123".
Proof.
  destruct (buildCallbackResponse_CallbackID (Message := Chat)
              (mkCallback "abc123" None None "" "vote:1") "Thanks" true "")
    as (_ & _ & _ & _ & _ & Habc & _ & _).
  apply Habc. reflexivity.
Defined.

(** C6. Dispatch takes the Callback when there is one, whatever else is
    populated, else the Query when there is one, else the Payload as a
    plain message: an update with only the Payload populated is a message,
    and one with the Callback populated is a callback even when the Payload
    is populated too. *)
Theorem dispatch_precedence {Message Query : Type} (id : Z) :
  (forall (p : option Message) (c : Callback Message) (q : option Query),
      dispatch (mkUpdate id p (Some c) q) = AsCallback c)
  /\ (forall (p : option Message) (q : Query),
        dispatch (mkUpdate id p None (Some q)) = AsQuery q)
  /\ (forall (p : option Message),
        dispatch (mkUpdate (Query := Query) id p None None) = AsMessage p)
  /\ (forall (m : Message),
        dispatch (mkUpdate (Query := Query) id (Some m) None None)
        = AsMessage (Some m))
  /\ (forall (m : Message) (c : Callback Message),
        dispatch (mkUpdate (Query := Query) id (Some m) (Some c) None)
        = AsCallback c).
Proof. repeat split. Qed.

(** C8. An update whose Payload, Callback and Query are all empty is an
    update like any other: the envelope that carries only [update_id] is
    decoded to it without an error, its three fields read as empty, and it
    is encoded (with three nulls) and decoded back unchanged. *)
Theorem empty_Update_valid {Message Query : Type}
  `{Entity Message} `{Entity Query} (id : Z) :
  in_int64 id ->
  let u : Update Message Query := mkUpdate id None None None in
  Unmarshal (Object [("update_id", Number (strconv.FormatInt id 10))])
  = Some u
  /\ Update_Payload u = None /\ Update_Callback u = None
  /\ Update_Query u = None
  /\ Marshal u
     = Object [("update_id", Number (strconv.FormatInt id 10));
               ("message", Null); ("callback_query", Null);
               ("inline_query", Null)]
  /\ Unmarshal (Marshal u) = Some u.
Proof.
  intros Hid u. subst u.
  unfold Unmarshal, Marshal.
  change (typeOf (Update Message Query)) with (@Update_t Message Query _ _).
  split; [|split; [|split; [|split; [|split]]]]; try reflexivity.
  - cbv -[strconv.FormatInt json.stringValue strconv.ParseInt typeOf].
    rewrite ParseInt_FormatInt by assumption. reflexivity.
  - cbv -[strconv.FormatInt json.stringValue strconv.ParseInt typeOf].
    rewrite ParseInt_FormatInt by assumption. reflexivity.
Qed.

Lemma empty_Update_valid_witness :
  Unmarshal (A := Update Chat User) (Object [("update_id", Number "42")])
  = Some (mkUpdate 42 None None None).
Proof.
  apply (proj1 (empty_Update_valid (Message := Chat) (Query := User) 42
                  ltac:(unfold in_int64, minInt64, maxInt64; lia))).
Defined.

(** ** The wire format *)

(** The key [caption] of a video belongs to the field [Caption] of the video
    itself: the field of the same key in the embedded audio lies deeper and
    is not among the fields of the type. *)
Lemma Video_fields :
  map (fun f => (name f, index f)) (typeFields Video_t)
  = [ ("file_id", [0; 0; 0]); ("file_size", [0; 0; 1]);
      ("duration", [0; 1]); ("title", [0; 2]); ("performer", [0; 3]);
      ("mime_type", [0; 4]);
      ("width", [1]); ("height", [2]); ("caption", [3]);
      ("thumb", [4]) ]%nat.
Proof. vm_compute. reflexivity. Qed.


(** A string that is not valid UTF-8 does not come back either: the encoder
    writes U+FFFD for the byte 0xFF. *)
Lemma invalid_string_replaced :
  Chat_valid latin1_chat = false
  /\ Unmarshal (Marshal latin1_chat)
     = Some (mkChat 1 "group" json.replacement "" "" "").
Proof. split; vm_compute; reflexivity. Qed.

(* ================================================================== *)
(** * Part IV: further properties of the code *)
(* ================================================================== *)

(** ** Destination tokens *)

Lemma FormatInt_injective (a b : Z) :
  in_int64 a -> in_int64 b ->
  strconv.FormatInt a 10 = strconv.FormatInt b 10 -> a = b.
Proof.
  intros Ha Hb E.
  pose proof (ParseInt_FormatInt a Ha) as Pa.
  pose proof (ParseInt_FormatInt b Hb) as Pb.
  rewrite E in Pa. congruence.
Qed.

Lemma isDigit_digit_char k : 0 <= k < 10 -> isDigit (digit_char k) = true.
Proof.
  intros Hk. unfold isDigit. rewrite byte_digit_char by assumption.
  apply andb_true_iff. split; apply Z.leb_le; lia.
Qed.

Lemma digits_shape fuel : forall u d,
  0 <= u < 10 ^ Z.of_nat fuel ->
  allDigits (NilEmpty.string_of_uint (Decimal.revapp (zlu u) d))
  = allDigits (NilEmpty.string_of_uint d)
  /\ (String.length (NilEmpty.string_of_uint (Decimal.revapp (zlu u) d))
      <= Nat.max 1 fuel + String.length (NilEmpty.string_of_uint d))%nat.
Proof.
  assert (forall k d, 0 <= k < 10 ->
            allDigits (NilEmpty.string_of_uint (cons_digit k d))
            = allDigits (NilEmpty.string_of_uint d)
            /\ String.length (NilEmpty.string_of_uint (cons_digit k d))
               = S (String.length (NilEmpty.string_of_uint d))) as Hone.
  { intros k d Hk. rewrite string_of_cons_digit by assumption.
    cbn [allDigits String.length]. rewrite isDigit_digit_char by assumption.
    split; reflexivity. }
  induction fuel as [|fuel IH]; intros u d Hu.
  - change (10 ^ Z.of_nat 0) with 1 in Hu.
    assert (u = 0) as -> by lia.
    rewrite zlu_zero. cbn [Decimal.revapp].
    change (Decimal.D0 d) with (cons_digit 0 d).
    destruct (Hone 0 d ltac:(lia)) as [H1 H2]. rewrite H1, H2.
    split; [reflexivity | cbn; lia].
  - destruct (Z_lt_le_dec u 10) as [Hlt | Hge].
    + destruct (Z.eq_dec u 0) as [-> | Hnz].
      * rewrite zlu_zero. cbn [Decimal.revapp].
        change (Decimal.D0 d) with (cons_digit 0 d).
        destruct (Hone 0 d ltac:(lia)) as [H1 H2]. rewrite H1, H2.
        split; [reflexivity | lia].
      * rewrite zlu_small, revapp_cons_digit by lia.
        cbn [Decimal.revapp].
        destruct (Hone u d ltac:(lia)) as [H1 H2]. rewrite H1, H2.
        split; [reflexivity | lia].
    + assert (0 <= u mod 10 < 10) as Hm by (apply Z.mod_pos_bound; lia).
      assert (0 <= u / 10 < 10 ^ Z.of_nat fuel) as Hq.
      { split; [apply Z.div_pos; lia|].
        apply Z.div_lt_upper_bound; [lia|].
        rewrite Nat2Z.inj_succ, Z.pow_succ_r in Hu by lia. lia. }
      assert (fuel <> 0)%nat as Hf.
      { intros ->. change (10 ^ Z.of_nat 0) with 1 in Hq.
        assert (1 <= u / 10) by (apply Z.div_le_lower_bound; lia). lia. }
      rewrite zlu_step, revapp_cons_digit by lia.
      destruct (IH (u / 10) (cons_digit (u mod 10) d) Hq) as [I1 I2].
      destruct (Hone (u mod 10) d Hm) as [H1 H2].
      rewrite I1, H1. split; [reflexivity|].
      rewrite H2 in I2. lia.
Qed.

Lemma digits_of_shape (u : Z) (n : nat) :
  0 <= u < 10 ^ Z.of_nat n ->
  allDigits (digits_of u) = true
  /\ (1 <= String.length (digits_of u) <= Nat.max 1 n)%nat.
Proof.
  intros Hu. unfold digits_of.
  destruct (digits_shape n u Decimal.Nil Hu) as [H1 H2].
  cbn [NilEmpty.string_of_uint allDigits String.length] in H1, H2.
  split; [exact H1|]. split; [|lia].
  destruct (revapp_zlu_head n u Decimal.Nil Hu) as (k & d' & Hk & Hd).
  rewrite Hd, string_of_cons_digit by assumption. cbn. lia.
Qed.

(** The decimal form of an [int64]: at most 19 digits after an optional
    minus sign. *)
Lemma FormatInt_numeric (i : Z) :
  in_int64 i ->
  numeric (strconv.FormatInt i 10) = true
  /\ (1 <= String.length (strconv.FormatInt i 10) <= 20)%nat.
Proof.
  intros Hi. rewrite FormatInt_decimal by assumption.
  rewrite decimal_string_digits.
  unfold in_int64, minInt64, maxInt64 in Hi.
  change (2 ^ 63) with 9223372036854775808 in Hi.
  destruct (Z.ltb_spec i 0) as [Hneg | Hnn].
  - destruct (digits_of_shape (- i) 19) as [Hd [Hl1 Hl2]].
    { change (10 ^ Z.of_nat 19) with 10000000000000000000. lia. }
    cbn [numeric String.length]. rewrite Ascii.eqb_refl, Hd.
    split; [|cbn in Hl2; lia].
    destruct (digits_of (- i)); [cbn in Hl1; lia | reflexivity].
  - destruct (digits_of_shape i 19) as [Hd [Hl1 Hl2]].
    { change (10 ^ Z.of_nat 19) with 10000000000000000000. lia. }
    split; [|cbn in Hl2; lia].
    destruct (digits_of i) as [|c r] eqn:E; [cbn in Hl1; lia|].
    unfold numeric.
    destruct (Ascii.eqb_spec c "-") as [-> | _]; [|exact Hd].
    cbn in Hd. discriminate Hd.
Qed.

Lemma numeric_not_handle (r : string) : numeric ("@" ++ r) = false.
Proof. reflexivity. Qed.

Lemma ParseInt_handle (r : string) : strconv.ParseInt ("@" ++ r) = None.
Proof. reflexivity. Qed.

(** X1. The token of a user reads back, with [strconv.ParseInt], as the
    identifier of the user; so users with the same token have the same
    identifier. *)
Theorem User_Destination_reads_back (u : User) :
  in_int64 (User_ID u) ->
  strconv.ParseInt (Destination u) = Some (User_ID u)
  /\ (forall u' : User,
        in_int64 (User_ID u') -> Destination u = Destination u' ->
        User_ID u = User_ID u').
Proof.
  intros Hu.
  change (Destination u) with (strconv.FormatInt (User_ID u) 10).
  split; [apply ParseInt_FormatInt; exact Hu|].
  intros u' Hu' E.
  change (Destination u') with (strconv.FormatInt (User_ID u') 10) in E.
  apply FormatInt_injective; assumption.
Qed.

Lemma User_Destination_reads_back_witness :
  strconv.ParseInt (Destination (mkUser (-7) "Ada" "" "ada")) = Some (-7).
Proof.
  apply (proj1 (User_Destination_reads_back (mkUser (-7) "Ada" "" "ada")
                  ltac:(unfold in_int64, minInt64, maxInt64;
                        cbn [User_ID]; lia))).
Defined.

(** X2. Parsing the token of a chat as an integer tells the two ways of
    addressing apart: it fails for a channel and gives the identifier for
    every other chat. *)
Theorem Chat_Destination_parse (c : Chat) :
  in_int64 (Chat_ID c) ->
  strconv.ParseInt (Destination c)
  = if String.eqb (Chat_Type c) "channel" then None else Some (Chat_ID c).
Proof.
  intros Hc. rewrite Chat_Destination_eq.
  destruct (String.eqb (Chat_Type c) "channel").
  - apply ParseInt_handle.
  - apply ParseInt_FormatInt. exact Hc.
Qed.

Lemma Chat_Destination_parse_witness :
  strconv.ParseInt (Destination (mkChat (-100123) "group" "Team" "" "" ""))
  = Some (-100123)
  /\ strconv.ParseInt (Destination (mkChat 555 "channel" "" "" "" "news"))
     = None.
Proof.
  split.
  - apply (Chat_Destination_parse (mkChat (-100123) "group" "Team" "" "" "")).
    unfold in_int64, minInt64, maxInt64. cbn [Chat_ID]. lia.
  - apply (Chat_Destination_parse (mkChat 555 "channel" "" "" "" "news")).
    unfold in_int64, minInt64, maxInt64. cbn [Chat_ID]. lia.
Defined.

(** X3. The token of a chat determines how and whom it addresses: two chats
    with the same token are both channels with the same username, or both
    not channels with the same identifier. *)
Theorem Chat_Destination_injective (c1 c2 : Chat) :
  in_int64 (Chat_ID c1) -> in_int64 (Chat_ID c2) ->
  Destination c1 = Destination c2 ->
  (Chat_Type c1 = "channel" /\ Chat_Type c2 = "channel"
   /\ Chat_Username c1 = Chat_Username c2)
  \/ (Chat_Type c1 <> "channel" /\ Chat_Type c2 <> "channel"
      /\ Chat_ID c1 = Chat_ID c2).
Proof.
  intros H1 H2 E. rewrite !Chat_Destination_eq in E.
  destruct (String.eqb_spec (Chat_Type c1) "channel") as [K1 | K1];
    destruct (String.eqb_spec (Chat_Type c2) "channel") as [K2 | K2].
  - left. injection E as E. auto.
  - exfalso. pose proof (proj1 (FormatInt_numeric _ H2)) as N.
    rewrite <- E in N. discriminate N.
  - exfalso. pose proof (proj1 (FormatInt_numeric _ H1)) as N.
    rewrite E in N. discriminate N.
  - right. repeat split; try assumption.
    apply FormatInt_injective; assumption.
Qed.

Lemma Chat_Destination_injective_witness :
  (Chat_Type (mkChat 42 "private" "" "Ada" "" "ada") = "channel"
   /\ Chat_Type (mkChat 42 "group" "Team" "" "" "") = "channel"
   /\ Chat_Username (mkChat 42 "private" "" "Ada" "" "ada")
      = Chat_Username (mkChat 42 "group" "Team" "" "" ""))
  \/ (Chat_Type (mkChat 42 "private" "" "Ada" "" "ada") <> "channel"
      /\ Chat_Type (mkChat 42 "group" "Team" "" "" "") <> "channel"
      /\ Chat_ID (mkChat 42 "private" "" "Ada" "" "ada")
         = Chat_ID (mkChat 42 "group" "Team" "" "" "")).
Proof.
  apply Chat_Destination_injective.
  - unfold in_int64, minInt64, maxInt64. cbn [Chat_ID]. lia.
  - unfold in_int64, minInt64, maxInt64. cbn [Chat_ID]. lia.
  - reflexivity.
Defined.

(** X4. The token of a user, and of a chat that is not a channel, is an
    optional minus sign followed by decimal digits, 1 to 20 bytes in all;
    it never begins with the "@" of a channel handle. *)
Theorem Destination_numeric (u : User) (c : Chat) :
  in_int64 (User_ID u) -> in_int64 (Chat_ID c) ->
  Chat_Type c <> "channel" ->
  numeric (Destination u) = true
  /\ (1 <= String.length (Destination u) <= 20)%nat
  /\ numeric (Destination c) = true
  /\ (1 <= String.length (Destination c) <= 20)%nat
  /\ (forall r, Destination u <> "@" ++ r)
  /\ (forall r, Destination c <> "@" ++ r).
Proof.
  intros Hu Hc Hk.
  assert (Destination c = strconv.FormatInt (Chat_ID c) 10) as Ec.
  { rewrite Chat_Destination_eq. apply String.eqb_neq in Hk.
    rewrite Hk. reflexivity. }
  rewrite Ec.
  change (Destination u) with (strconv.FormatInt (User_ID u) 10).
  destruct (FormatInt_numeric _ Hu) as [Nu Lu].
  destruct (FormatInt_numeric _ Hc) as [Nc Lc].
  repeat split; try assumption; try lia.
  - intros r E. rewrite E in Nu. discriminate Nu.
  - intros r E. rewrite E in Nc. discriminate Nc.
Qed.

Lemma Destination_numeric_witness :
  numeric (Destination (mkUser minInt64 "" "" "")) = true
  /\ (String.length (Destination (mkUser minInt64 "" "" "")) <= 20)%nat.
Proof.
  destruct (Destination_numeric (mkUser minInt64 "" "" "")
              (mkChat 1 "private" "" "" "" "")) as (N & L & _).
  - unfold in_int64, minInt64, maxInt64. cbn [User_ID]. lia.
  - unfold in_int64, minInt64, maxInt64. cbn [Chat_ID]. lia.
  - discriminate.
  - split; [exact N | lia].
Defined.

(** X5. The two methods of a chat agree: a chat that is not a group chat is
    addressed by its identifier, never by a handle, and a chat addressed
    by a handle is a group chat. *)
Theorem IsGroupChat_Destination (c : Chat) :
  in_int64 (Chat_ID c) ->
  (IsGroupChat c = false -> Destination c = decimal_string (Chat_ID c))
  /\ (forall r, Destination c = "@" ++ r ->
                IsGroupChat c = true /\ r = Chat_Username c).
Proof.
  intros Hc. split.
  - intros Hg. apply Destination_not_channel; [exact Hc|].
    rewrite IsGroupChat_eq in Hg. apply negb_false_iff in Hg.
    apply String.eqb_eq in Hg. rewrite Hg. discriminate.
  - intros r E. rewrite Chat_Destination_eq in E.
    destruct (String.eqb_spec (Chat_Type c) "channel") as [K | K].
    + injection E as E. split; [|symmetry; exact E].
      rewrite IsGroupChat_eq, K. reflexivity.
    + exfalso. pose proof (proj1 (FormatInt_numeric _ Hc)) as N.
      rewrite E in N. discriminate N.
Qed.

Lemma IsGroupChat_Destination_witness :
  Destination (mkChat 42 "private" "" "Ada" "" "ada") = decimal_string 42.
Proof.
  apply (proj1 (IsGroupChat_Destination (mkChat 42 "private" "" "Ada" "" "ada")
                  ltac:(unfold in_int64, minInt64, maxInt64;
                        cbn [Chat_ID]; lia))).
  reflexivity.
Defined.

(** ** The members on the wire *)

(** X6. A user and a chat are always written with all their members, in
    the order of the declaration, empty strings included: none of their
    fields is optional on the wire. *)
Theorem User_Chat_members (u : User) (c : Chat) :
  Marshal u
  = Object [ ("id", Number (strconv.FormatInt (User_ID u) 10));
             ("first_name", Str (stringValue (User_FirstName u)));
             ("last_name", Str (stringValue (User_LastName u)));
             ("username", Str (stringValue (User_Username u))) ]
  /\ Marshal c
     = Object [ ("id", Number (strconv.FormatInt (Chat_ID c) 10));
                ("type", Str (stringValue (Chat_Type c)));
                ("title", Str (stringValue (Chat_Title c)));
                ("first_name", Str (stringValue (Chat_FirstName c)));
                ("last_name", Str (stringValue (Chat_LastName c)));
                ("username", Str (stringValue (Chat_Username c))) ].
Proof.
  destruct u as [ui uf ul un], c as [ci ct ctt cf cl cu].
  split; reflexivity.
Qed.

(** X7. The members marked [omitempty] are written exactly when they are
    not empty: for an inline button the text always and each of url,
    callback_data and switch_inline_query when its string is not empty;
    for a keyboard button and a callback response likewise, a flag being
    written only when it is true. *)
Theorem omitempty_members (b : InlineButton) (k : KeyboardButton)
  (r : CallbackResponse) :
  Marshal b
  = Object (("text", Str (stringValue (InlineButton_Text b)))
              :: optionalString "url" (InlineButton_URL b)
              ++ optionalString "callback_data" (InlineButton_Data b)
              ++ optionalString "switch_inline_query"
                   (InlineButton_InlineQuery b))%list
  /\ Marshal k
     = Object (("text", Str (stringValue (KeyboardButton_Text k)))
                 :: optionalBool "request_contact" (KeyboardButton_Contact k)
                 ++ optionalBool "request_location"
                      (KeyboardButton_Location k))%list
  /\ Marshal r
     = Object (("callback_query_id", Str (stringValue (CallbackID r)))
                 :: optionalString "text" (Text r)
                 ++ optionalBool "show_alert" (ShowAlert r)
                 ++ optionalString "url" (URL r))%list.
Proof.
  destruct b as [bt bu bd bq], k as [kt kc kl], r as [ri rt ra ru].
  split; [|split].
  - destruct bu, bd, bq; reflexivity.
  - destruct kc, kl; reflexivity.
  - destruct rt, ra, ru; reflexivity.
Qed.

(** ** What the encoder writes is valid UTF-8 *)

Lemma length_append (s t : string) :
  String.length (s ++ t) = (String.length s + String.length t)%nat.
Proof.
  induction s as [|c s IH]; cbn [String.append String.length];
    [reflexivity | rewrite IH; reflexivity].
Qed.

(** One rune that [DecodeRuneInString] accepts is one round of
    [ValidString]. *)
Lemma validLoop_rune (b : ascii) (rest t : string) (c size : Z) (f : nat) :
  128 <= byte b ->
  utf8.DecodeRuneInString (String b rest) = (c, size) ->
  (c =? utf8.RuneError) && (size =? 1) = false ->
  utf8.validLoop (S f) (slice (String b rest) 0 size ++ t)
  = utf8.validLoop f t
  /\ (1 <= String.length (slice (String b rest) 0 size))%nat.
Proof.
  intros Hb HD Hne.
  pose proof (first_class (byte b) Hb) as Hx.
  assert ((byte b <? utf8.RuneSelf) = false) as Hself
    by (apply Z.ltb_ge; exact Hb).
  assert (forall r : string,
            (Z.of_nat (S (S (S (S (S (String.length r)))))) <? 4) = false) as L4
    by (intros r; apply Z.ltb_ge; lia).
  assert (forall r : string,
            (Z.of_nat (S (S (S (S (S (String.length r)))))) <? 3) = false) as L3
    by (intros r; apply Z.ltb_ge; lia).
  assert (forall r : string,
            (Z.of_nat (S (S (S (S (S (String.length r)))))) <? 2) = false) as L2
    by (intros r; apply Z.ltb_ge; lia).
  assert (forall r : string,
            (Z.of_nat (S (S (S (S (S (String.length r)))))) <? 1) = false) as L1
    by (intros r; apply Z.ltb_ge; lia).
  unfold utf8.DecodeRuneInString in HD.
  destruct rest as [|b1 [|b2 [|b3 [|b4 r]]]];
    cbn [String.length byteAt String.get Z.to_nat Pos.to_nat Pos.iter_op
         Nat.add] in HD;
    rewrite ?L1, ?L2, ?L3, ?L4 in HD;
    remember (byte b) as x0 eqn:E0;
    try remember (byte b1) as x1 eqn:E1;
    try remember (byte b2) as x2 eqn:E2;
    try remember (byte b3) as x3 eqn:E3;
    cbn [In] in Hx;
    repeat (destruct Hx as [Hx | Hx]; [rewrite <- Hx in HD|]);
    try contradiction.
  all: cbn in HD.
  all: repeat match type of HD with
              | context [if ?c then _ else _] =>
                  let He := fresh "He" in
                  destruct c eqn:He;
                  try (let H' := fresh in
                       pose proof He as H'; cbn in H'; discriminate H');
                  cbn in HD
              end.
  all: injection HD as <- <-.
  all: try (cbn in Hne; discriminate Hne).
  all: clear Hne.
  all: split; [|vm_compute; lia].
  all: cbv -[byte utf8.first utf8.validLoop].
  all: cbn [utf8.validLoop].
  all: rewrite <- ?E0, <- ?E1, <- ?E2, <- ?E3, ?Hself, <- ?Hx.
  all: cbn -[byte byteAt Z.of_nat utf8.validLoop].
  all: unfold utf8.locb, utf8.hicb in *.
  all: repeat match goal with
              | H : context [byteAt (String ?a (String ?c ?r)) 1] |- _ =>
                  change (byteAt (String a (String c r)) 1) with c in H
              | H : context [byteAt (String ?a (String ?c (String ?d ?r))) 2]
                |- _ =>
                  change (byteAt (String a (String c (String d r))) 2)
                    with d in H
              | H : context [byteAt (String ?a (String ?c (String ?d
                                                     (String ?e ?r)))) 3]
                |- _ =>
                  change (byteAt (String a (String c (String d (String e r))))
                            3) with e in H
              | |- context [byteAt (String ?a (String ?c ?r)) 1] =>
                  change (byteAt (String a (String c r)) 1) with c
              | |- context [byteAt (String ?a (String ?c (String ?d ?r))) 2] =>
                  change (byteAt (String a (String c (String d r))) 2) with d
              | |- context [byteAt (String ?a (String ?c (String ?d
                                                     (String ?e ?r)))) 3] =>
                  change (byteAt (String a (String c (String d (String e r))))
                            3) with e
              end.
  all: repeat match goal with
              | |- context [Z.of_nat ?n <? ?k] =>
                  replace (Z.of_nat n <? k) with false
                    by (symmetry; apply Z.ltb_ge; cbn [String.length]; lia)
              end.
  all: repeat match goal with
              | E : ?x = byte ?c |- _ => subst x
              end.
  all: repeat match goal with
              | He : ?c = false |- context [if ?c then _ else _] =>
                  rewrite He
              end.
  all: reflexivity.
Qed.

Lemma validLoop_replacement (t : string) (f : nat) :
  utf8.validLoop (S f) (json.replacement ++ t) = utf8.validLoop f t.
Proof.
  pose proof (validLoop_rune (ascii_of_byte 239)
                (String (ascii_of_byte 191) (String (ascii_of_byte 189) ""))
                t 65533 3 f) as H.
  apply H; [vm_compute; discriminate | reflexivity | reflexivity].
Qed.

Lemma stringLoop_is_valid (f2 : nat) : forall (s : string) (f1 : nat),
  (String.length (json.stringLoop f2 s) <= f1)%nat ->
  utf8.validLoop f1 (json.stringLoop f2 s) = true.
Proof.
  induction f2 as [|f2 IH]; intros s f1 Hf.
  - cbn [json.stringLoop]. destruct f1; reflexivity.
  - destruct s as [|b rest]; [destruct f1; reflexivity|].
    cbn [json.stringLoop] in *.
    destruct (byte b <? utf8.RuneSelf) eqn:Hascii.
    + cbn [String.length] in Hf.
      destruct f1 as [|f1]; [lia|].
      cbn [utf8.validLoop]. rewrite Hascii. apply IH. lia.
    + unfold utf8.RuneSelf in Hascii. apply Z.ltb_ge in Hascii.
      destruct (utf8.DecodeRuneInString (String b rest)) as [c size] eqn:HD.
      destruct ((c =? utf8.RuneError) && (size =? 1)) eqn:Hc.
      * rewrite length_append in Hf.
        change (String.length json.replacement) with 3%nat in Hf.
        destruct f1 as [|f1]; [lia|].
        rewrite validLoop_replacement. apply IH. lia.
      * destruct (validLoop_rune b rest
                    (json.stringLoop f2 (drop (Z.to_nat size) (String b rest)))
                    c size (pred f1) Hascii HD Hc) as [Hv Hl].
        rewrite length_append in Hf.
        destruct f1 as [|f1]; [lia|].
        cbn [pred] in Hv. rewrite Hv. apply IH. lia.
Qed.

Lemma stringValue_is_valid (s : string) :
  utf8.ValidString (json.stringValue s) = true.
Proof.
  unfold utf8.ValidString, json.stringValue.
  apply stringLoop_is_valid. lia.
Qed.

Lemma stringValue_idempotent (s : string) :
  json.stringValue (json.stringValue s) = json.stringValue s.
Proof. apply stringValue_valid, stringValue_is_valid. Qed.

Lemma Chat_trip (c : Chat) :
  in_int64 (Chat_ID c) -> Unmarshal (Marshal c) = Some (Chat_read c).
Proof.
  destruct c as [id ty t f l n]. cbn [Chat_ID]. intros Hc.
  unfold Marshal, Unmarshal, Chat_read.
  cbv -[strconv.FormatInt json.stringValue strconv.ParseInt].
  rewrite ParseInt_FormatInt by assumption. reflexivity.
Qed.

Lemma User_trip (u : User) :
  in_int64 (User_ID u) -> Unmarshal (Marshal u) = Some (User_read u).
Proof.
  destruct u as [id f l n]. cbn [User_ID]. intros Hu.
  unfold Marshal, Unmarshal, User_read.
  cbv -[strconv.FormatInt json.stringValue strconv.ParseInt].
  rewrite ParseInt_FormatInt by assumption. reflexivity.
Qed.

Lemma in_int64b_complete (z : Z) : in_int64 z -> in_int64b z = true.
Proof.
  unfold in_int64, in_int64b. intros H.
  apply andb_true_iff. split; apply Z.leb_le; lia.
Qed.

(** X8. Encoding a chat or a user and decoding the result never fails,
    whatever bytes the strings hold: the value read back has every string
    as the encoder writes it (bytes that are not UTF-8 replaced by U+FFFD),
    it is valid for the wire, and a second trip leaves it unchanged. *)
Theorem wire_trip_never_fails (u : User) (c : Chat) :
  in_int64 (User_ID u) -> in_int64 (Chat_ID c) ->
  Unmarshal (Marshal u) = Some (User_read u)
  /\ User_valid (User_read u) = true
  /\ Unmarshal (Marshal (User_read u)) = Some (User_read u)
  /\ Unmarshal (Marshal c) = Some (Chat_read c)
  /\ Chat_valid (Chat_read c) = true
  /\ Unmarshal (Marshal (Chat_read c)) = Some (Chat_read c).
Proof.
  intros Hu Hc.
  assert (User_valid (User_read u) = true) as Vu.
  { unfold User_valid, User_read.
    cbn [User_ID User_FirstName User_LastName User_Username].
    rewrite (in_int64b_complete _ Hu), !stringValue_is_valid. reflexivity. }
  assert (Chat_valid (Chat_read c) = true) as Vc.
  { unfold Chat_valid, Chat_read.
    cbn [Chat_ID Chat_Type Chat_Title Chat_FirstName Chat_LastName
         Chat_Username].
    rewrite (in_int64b_complete _ Hc), !stringValue_is_valid. reflexivity. }
  split; [exact (User_trip u Hu)|].
  split; [exact Vu|].
  split; [exact (User_roundtrip _ Vu)|].
  split; [exact (Chat_trip c Hc)|].
  split; [exact Vc|].
  exact (Chat_roundtrip _ Vc).
Qed.

Lemma wire_trip_never_fails_witness :
  Unmarshal (Marshal latin1_chat)
  = Some (mkChat 1 "group" json.replacement "" "" "").
Proof.
  destruct (wire_trip_never_fails (mkUser 1 "" "" "") latin1_chat)
    as (_ & _ & _ & R & _).
  - unfold in_int64, minInt64, maxInt64. cbn [User_ID]. lia.
  - unfold in_int64, minInt64, maxInt64. cbn [Chat_ID latin1_chat]. lia.
  - exact R.
Defined.

(** ** Identifiers read from the wire *)

Lemma uint64_nonneg (z : Z) : 0 <= uint64 z.
Proof.
  unfold uint64. apply Z.mod_pos_bound.
  change (2 ^ 64) with 18446744073709551616. lia.
Qed.

Lemma parseUintLoop_nonneg (s : string) : forall n r,
  0 <= n -> strconv.parseUintLoop s n = Some r -> 0 <= r.
Proof.
  induction s as [|c s IH]; intros n r Hn H; cbn [strconv.parseUintLoop] in H.
  - injection H as <-. exact Hn.
  - cbv zeta in H.
    destruct ((48 <=? byte c) && (byte c <=? 57)); [|discriminate H].
    destruct (strconv.maxUint64 / 10 + 1 <=? n); [discriminate H|].
    destruct ((uint64 (uint64 (n * 10) + (byte c - 48)) <? uint64 (n * 10))
              || (strconv.maxUint64
                    <? uint64 (uint64 (n * 10) + (byte c - 48))));
      [discriminate H|].
    exact (IH _ _ (uint64_nonneg _) H).
Qed.

(** [ParseInt] returns [int64] values only. *)
Lemma ParseInt_range (s : string) (n : Z) :
  strconv.ParseInt s = Some n -> in_int64 n.
Proof.
  unfold strconv.ParseInt. destruct s as [|c0 s']; [discriminate|].
  cbv zeta.
  destruct (strconv.ParseUint
              (if (byte c0 =? 43) || (byte c0 =? 45) then s'
               else String c0 s')) as [un|] eqn:HU; [|discriminate].
  assert (0 <= un) as Hun.
  { unfold strconv.ParseUint in HU.
    destruct (if (byte c0 =? 43) || (byte c0 =? 45) then s' else String c0 s');
      [discriminate HU|].
    apply (parseUintLoop_nonneg _ 0 un ltac:(lia) HU). }
  change (2 ^ 63) with 9223372036854775808.
  unfold in_int64, minInt64, maxInt64.
  change (2 ^ 63) with 9223372036854775808.
  destruct (byte c0 =? 45); cbn [negb andb].
  - destruct (Z.ltb_spec 9223372036854775808 un); [discriminate|].
    intros [= <-]. lia.
  - destruct (Z.leb_spec 9223372036854775808 un); [discriminate|].
    intros [= <-]. lia.
Qed.

Lemma decode_integer (j : Value) (t : GoType) (id : Z) (v : GoVal) :
  t = TInt \/ t = TInt64 -> in_int64 id ->
  decode j t (VInt id) = Some v ->
  exists id', v = VInt id' /\ in_int64 id'.
Proof.
  intros Ht Hid H.
  destruct Ht as [-> | ->]; destruct j; cbn in H; try discriminate H.
  all: try (injection H as <-; exists id; split; [reflexivity | exact Hid]).
  all: destruct (strconv.ParseInt literal) as [n|] eqn:P; [|discriminate H].
  all: injection H as <-; exists n; split;
    [reflexivity | exact (ParseInt_range _ _ P)].
Qed.

Lemma find_In {A : Type} (p : A -> bool) (l : list A) (a : A) :
  find p l = Some a -> In a l.
Proof.
  induction l as [|x l IH]; cbn [find]; [discriminate|].
  destruct (p x); [intros [= <-]; left; reflexivity|].
  intros H. right. exact (IH H).
Qed.

Lemma findField_In (fields : list field) (key : string) (f : field) :
  findField fields key = Some f -> In f fields.
Proof.
  unfold findField.
  destruct (find (fun f => String.eqb (name f) key) fields) eqn:E.
  - intros [= <-]. exact (find_In _ _ _ E).
  - apply find_In.
Qed.

Lemma decodeMembers_integerFirst (fields : list field) :
  integerFirst fields ->
  forall (ms : list (string * Value)) (id : Z) (rest : list GoVal) (v : GoVal),
  in_int64 id ->
  decodeMembers decode fields ms (VStruct (VInt id :: rest)) = Some v ->
  exists id' rest', v = VStruct (VInt id' :: rest') /\ in_int64 id'.
Proof.
  intros Hf. induction ms as [|[key j] ms IH]; intros id rest v Hid H.
  - cbn [decodeMembers] in H. injection H as <-. eauto.
  - cbn [decodeMembers fst snd] in H.
    destruct (findField fields key) as [f|] eqn:F; [|exact (IH _ _ _ Hid H)].
    destruct (Hf f (findField_In _ _ _ F)) as [[Hi Ht] | [k Hi]];
      rewrite Hi in H.
    + cbn [fieldByIndex nth_error] in H.
      destruct (decode j (typ f) (VInt id)) as [sub|] eqn:D;
        [|discriminate H].
      destruct (decode_integer _ _ _ _ Ht Hid D) as (id' & -> & Hid').
      cbn [setByIndex nth_error setNth] in H.
      exact (IH _ _ _ Hid' H).
    + cbn [fieldByIndex nth_error] in H.
      destruct (nth_error rest k) as [x|] eqn:N; [|discriminate H].
      destruct (decode j (typ f) x) as [sub|]; [|discriminate H].
      cbn [setByIndex nth_error setNth] in H. rewrite N in H.
      cbn [setByIndex] in H.
      exact (IH _ _ _ Hid H).
Qed.

Lemma decode_integerFirst (sfs : list (StructField GoType)) (j : Value)
  (rest : list GoVal) (v : GoVal) :
  integerFirst (typeFields (TStruct sfs)) ->
  decode j (TStruct sfs) (VStruct (VInt 0 :: rest)) = Some v ->
  exists id' rest', v = VStruct (VInt id' :: rest') /\ in_int64 id'.
Proof.
  intros Hf H.
  assert (in_int64 0) as H0 by (unfold in_int64, minInt64, maxInt64; lia).
  destruct j; cbn [decode indirect] in H; try discriminate H.
  - injection H as <-. eauto.
  - exact (decodeMembers_integerFirst _ Hf _ _ _ _ H0 H).
Qed.

Ltac integer_first_fields :=
  intros f Hf; cbv -[typeOf] in Hf;
  repeat (destruct Hf as [<- | Hf];
          [first [ left; split; [reflexivity | first [left; reflexivity
                                                       | right; reflexivity]]
                 | right; eexists; reflexivity ]|]);
  contradiction.

Lemma Chat_integerFirst : integerFirst (typeFields Chat_t).
Proof. integer_first_fields. Qed.

Lemma User_integerFirst : integerFirst (typeFields User_t).
Proof. integer_first_fields. Qed.

Lemma Contact_integerFirst : integerFirst (typeFields Contact_t).
Proof. integer_first_fields. Qed.

Lemma Update_integerFirst {Message Query : Type}
  `{Entity Message} `{Entity Query} :
  integerFirst (typeFields (@Update_t Message Query _ _)).
Proof. integer_first_fields. Qed.

Ltac first_field_of H :=
  cbn in H;
  repeat match type of H with
         | context [match ?x with _ => _ end] =>
             destruct x; try discriminate H
         end;
  injection H as <-; reflexivity.

Lemma Chat_decoded_range (j : Value) (c : Chat) :
  Unmarshal j = Some c -> in_int64 (Chat_ID c).
Proof.
  intros H. unfold Unmarshal in H.
  destruct (decode j (typeOf Chat) (zero (typeOf Chat))) as [v|] eqn:D;
    [|discriminate H].
  destruct (decode_integerFirst _ _ _ _ Chat_integerFirst D)
    as (id & rest & -> & Hid).
  assert (Chat_ID c = id) as -> by first_field_of H. exact Hid.
Qed.

Lemma User_decoded_range (j : Value) (u : User) :
  Unmarshal j = Some u -> in_int64 (User_ID u).
Proof.
  intros H. unfold Unmarshal in H.
  destruct (decode j (typeOf User) (zero (typeOf User))) as [v|] eqn:D;
    [|discriminate H].
  destruct (decode_integerFirst _ _ _ _ User_integerFirst D)
    as (id & rest & -> & Hid).
  assert (User_ID u = id) as -> by first_field_of H. exact Hid.
Qed.

(** ** Numbers that do not fit

    A decimal number outside [int64] makes [ParseInt] return an error,
    however many digits it has. *)

Lemma parseUintLoop_overflow k s n :
  0 <= k < 10 -> 0 <= n < 2 ^ 64 -> 2 ^ 64 <= n * 10 + k ->
  strconv.parseUintLoop (String (digit_char k) s) n = None.
Proof.
  intros Hk Hn Hb. cbn [strconv.parseUintLoop].
  rewrite byte_digit_char by assumption.
  change (2 ^ 64) with 18446744073709551616 in Hb, Hn.
  replace (48 <=? 48 + k) with true by (symmetry; apply Z.leb_le; lia).
  replace (48 + k <=? 57) with true by (symmetry; apply Z.leb_le; lia).
  cbn [andb]. cbv zeta.
  change (strconv.maxUint64 / 10 + 1) with 1844674407370955162.
  destruct (Z.leb_spec 1844674407370955162 n) as [Hc | Hc]; [reflexivity|].
  unfold uint64, strconv.maxUint64.
  change (2 ^ 64) with 18446744073709551616.
  rewrite (Z.mod_small (n * 10)) by lia.
  replace (48 + k - 48) with k by lia.
  replace ((n * 10 + k) mod 18446744073709551616)
    with (n * 10 + k - 18446744073709551616).
  2:{ apply (Z.mod_unique _ _ 1); lia. }
  replace (n * 10 + k - 18446744073709551616 <? n * 10) with true
    by (symmetry; apply Z.ltb_lt; lia).
  reflexivity.
Qed.

Lemma parseUintLoop_large fuel : forall u d,
  0 <= u < 10 ^ Z.of_nat fuel -> 2 ^ 64 <= u ->
  strconv.parseUintLoop (NilEmpty.string_of_uint (Decimal.revapp (zlu u) d)) 0
  = None.
Proof.
  induction fuel as [|fuel IH]; intros u d Hu Hb.
  - change (10 ^ Z.of_nat 0) with 1 in Hu.
    change (2 ^ 64) with 18446744073709551616 in Hb. lia.
  - assert (10 <= u) as Hge
        by (change (2 ^ 64) with 18446744073709551616 in Hb; lia).
    assert (0 <= u mod 10 < 10) as Hm by (apply Z.mod_pos_bound; lia).
    assert (0 <= u / 10 < 10 ^ Z.of_nat fuel) as Hq.
    { split; [apply Z.div_pos; lia|].
      apply Z.div_lt_upper_bound; [lia|].
      rewrite Nat2Z.inj_succ, Z.pow_succ_r in Hu by lia. lia. }
    pose proof (Z.div_mod u 10) as Hdm.
    rewrite zlu_step, revapp_cons_digit by lia.
    destruct (Z_lt_le_dec (u / 10) (2 ^ 64)) as [Hs | Hl].
    + rewrite (parseUintLoop_digits fuel) by lia.
      rewrite string_of_cons_digit by lia.
      apply parseUintLoop_overflow; lia.
    + apply IH; lia.
Qed.

Lemma decimal_bound (u : Z) : 0 <= u -> u < 10 ^ Z.of_nat (Z.to_nat u).
Proof.
  intros Hu. rewrite Z2Nat.id by exact Hu.
  apply Z.pow_gt_lin_r; lia.
Qed.

Lemma digits_of_head (u : Z) :
  0 <= u -> exists k s, 0 <= k < 10 /\ digits_of u = String (digit_char k) s.
Proof.
  intros Hu.
  destruct (revapp_zlu_head (Z.to_nat u) u Decimal.Nil
              (conj Hu (decimal_bound u Hu))) as (k & d' & Hk & Hd).
  exists k, (NilEmpty.string_of_uint d'). split; [exact Hk|].
  unfold digits_of. rewrite Hd. apply string_of_cons_digit. exact Hk.
Qed.

Lemma ParseUint_large (u : Z) :
  2 ^ 64 <= u -> strconv.ParseUint (digits_of u) = None.
Proof.
  intros Hb.
  assert (0 <= u) as Hu by (change (2 ^ 64) with 18446744073709551616 in Hb; lia).
  destruct (digits_of_head u Hu) as (k & s & Hk & Hs).
  unfold strconv.ParseUint. rewrite Hs. rewrite <- Hs.
  unfold digits_of.
  apply (parseUintLoop_large (Z.to_nat u)); [|exact Hb].
  split; [exact Hu | exact (decimal_bound u Hu)].
Qed.

(** [ParseInt] on the decimal string of any integer: the integer when it is
    an [int64], an error otherwise. *)
Lemma ParseInt_decimal_string (n : Z) :
  strconv.ParseInt (decimal_string n) = if in_int64b n then Some n else None.
Proof.
  destruct (in_int64b n) eqn:E.
  - apply in_int64b_spec in E.
    rewrite <- (FormatInt_decimal n E). apply ParseInt_FormatInt. exact E.
  - assert (n < - 2 ^ 63 \/ 2 ^ 63 <= n) as Hout.
    { unfold in_int64b, minInt64, maxInt64 in E.
      apply andb_false_iff in E. destruct E as [E | E].
      - apply Z.leb_gt in E. left. lia.
      - apply Z.leb_gt in E. right. lia. }
    rewrite decimal_string_digits.
    change (2 ^ 63) with 9223372036854775808 in Hout.
    destruct (Z.ltb_spec n 0) as [Hneg | Hnn].
    + destruct Hout as [Hout | Hout]; [|lia].
      unfold strconv.ParseInt.
      change (byte "-" =? 45) with true. cbv zeta.
      change (byte "-" =? 43) with false. cbn [orb andb negb].
      destruct (Z_lt_le_dec (- n) (2 ^ 64)) as [Hs | Hl].
      * destruct (ParseUint_digits (- n)) as [Hp _]; [lia|].
        rewrite Hp. change (2 ^ 63) with 9223372036854775808.
        replace (9223372036854775808 <? - n) with true
          by (symmetry; apply Z.ltb_lt; lia).
        reflexivity.
      * rewrite (ParseUint_large _ Hl). reflexivity.
    + destruct Hout as [Hout | Hout]; [lia|].
      destruct (digits_of_head n Hnn) as (k & s & Hk & Hs).
      unfold strconv.ParseInt. rewrite Hs.
      rewrite byte_digit_char by assumption.
      replace (48 + k =? 45) with false by (symmetry; apply Z.eqb_neq; lia).
      replace (48 + k =? 43) with false by (symmetry; apply Z.eqb_neq; lia).
      cbv zeta. cbn [orb andb negb]. rewrite <- Hs.
      destruct (Z_lt_le_dec n (2 ^ 64)) as [Hs' | Hl].
      * destruct (ParseUint_digits n) as [Hp _]; [lia|].
        rewrite Hp. change (2 ^ 63) with 9223372036854775808.
        replace (9223372036854775808 <=? n) with true
          by (symmetry; apply Z.leb_le; lia).
        reflexivity.
      * rewrite (ParseUint_large _ Hl). reflexivity.
Qed.

Lemma decodeMembers_error (dec : Value -> GoType -> GoVal -> option GoVal)
  (fields : list field) (key : string) (j : Value)
  (before after : list (string * Value)) (f : field) :
  findField fields key = Some f ->
  (forall sub, dec j (typ f) sub = None) ->
  forall cur, decodeMembers dec fields (before ++ (key, j) :: after) cur = None.
Proof.
  intros Hf Hd. induction before as [|[k v] before IH]; intros cur.
  - cbn [app decodeMembers fst snd]. rewrite Hf.
    destruct (fieldByIndex cur (index f)); [|reflexivity].
    rewrite Hd. reflexivity.
  - cbn [app decodeMembers fst snd].
    destruct (findField fields k) as [g|]; [|apply IH].
    destruct (fieldByIndex cur (index g)) as [sub|]; [|reflexivity].
    destruct (dec v (typ g) sub) as [sub'|]; [|reflexivity].
    apply IH.
Qed.

Lemma decode_out_of_range (n : Z) (t : GoType) (cur : GoVal) :
  t = TInt \/ t = TInt64 -> ~ in_int64 n ->
  decode (Number (decimal_string n)) t cur = None.
Proof.
  intros Ht Hn.
  assert (strconv.ParseInt (decimal_string n) = None) as P.
  { rewrite ParseInt_decimal_string.
    destruct (in_int64b n) eqn:E; [|reflexivity].
    exfalso. exact (Hn (in_int64b_spec n E)). }
  destruct Ht as [-> | ->]; cbn [decode indirect]; rewrite P; reflexivity.
Qed.

(** X9. Whatever JSON value is decoded, a chat, a user, a contact or an
    update that comes out of it without an error has an identifier within
    [int64].  A number that does not fit is an error, not a wrapped nor a
    clamped value: for every integer outside [int64], an object that holds
    its decimal form under the key of the identifier is decoded to an
    error, whatever members stand before and after it; and for every
    integer within [int64] the identifier read is that integer. *)
Theorem decoded_identifier_in_range :
  (forall (j : Value) (c : Chat), Unmarshal j = Some c -> in_int64 (Chat_ID c))
  /\ (forall (j : Value) (u : User),
        Unmarshal j = Some u -> in_int64 (User_ID u))
  /\ (forall (j : Value) (c : Contact),
        Unmarshal j = Some c -> in_int64 (Contact_UserID c))
  /\ (forall (Message Query : Type) (EM : Entity Message) (EQ : Entity Query)
             (j : Value) (u : Update Message Query),
        Unmarshal j = Some u -> in_int64 (Update_ID u))
  /\ (forall (n : Z) (before after : list (string * Value)),
        ~ in_int64 n ->
        Unmarshal (A := Chat)
          (Object (before ++ ("id", Number (decimal_string n)) :: after))
        = None
        /\ Unmarshal (A := User)
             (Object (before ++ ("id", Number (decimal_string n)) :: after))
           = None
        /\ Unmarshal (A := Contact)
             (Object (before ++ ("user_id", Number (decimal_string n)) :: after))
           = None
        /\ (forall (Message Query : Type)
                   (EM : Entity Message) (EQ : Entity Query),
              Unmarshal (A := Update Message Query)
                (Object
                   (before ++ ("update_id", Number (decimal_string n)) :: after))
              = None))
  /\ (forall n : Z,
        in_int64 n ->
        Unmarshal (Object [("id", Number (decimal_string n))])
        = Some (mkChat n "" "" "" "" "")
        /\ Unmarshal (Object [("id", Number (decimal_string n))])
           = Some (mkUser n "" "" "")
        /\ Unmarshal (Object [("user_id", Number (decimal_string n))])
           = Some (mkContact n "" "" "")
        /\ (forall (Message Query : Type)
                   (EM : Entity Message) (EQ : Entity Query),
              Unmarshal (Object [("update_id", Number (decimal_string n))])
              = Some (mkUpdate (Message := Message) (Query := Query)
                        n None None None))).
Proof.
  split; [|split; [|split; [|split; [|split]]]].
  - exact Chat_decoded_range.
  - exact User_decoded_range.
  - intros j c H. unfold Unmarshal in H.
    destruct (decode j (typeOf Contact) (zero (typeOf Contact))) as [v|] eqn:D;
      [|discriminate H].
    destruct (decode_integerFirst _ _ _ _ Contact_integerFirst D)
      as (id & rest & -> & Hid).
    assert (Contact_UserID c = id) as -> by first_field_of H. exact Hid.
  - intros Message Query EM EQ j u H. unfold Unmarshal in H.
    destruct (decode j (typeOf (Update Message Query))
                (zero (typeOf (Update Message Query)))) as [v|] eqn:D;
      [|discriminate H].
    destruct (decode_integerFirst _ _ _ _ Update_integerFirst D)
      as (id & rest & -> & Hid).
    assert (Update_ID u = id) as ->; [|exact Hid].
    cbn [ofVal Update_Entity] in H.
    repeat match type of H with
           | context [match ?x with _ => _ end] =>
               destruct x; try discriminate H
           end.
    injection H as <-. reflexivity.
  - intros n before after Hn. split; [|split; [|split]].
    + unfold Unmarshal. change (typeOf Chat) with Chat_t.
      unfold Chat_t at 1. rewrite decode_object. fold Chat_t.
      rewrite (decodeMembers_error decode _ "id" _ before after
                 (mkfield "id" true [0%nat] TInt64 false));
        [reflexivity | vm_compute; reflexivity |].
      intros sub. apply decode_out_of_range; [right; reflexivity | exact Hn].
    + unfold Unmarshal. change (typeOf User) with User_t.
      unfold User_t at 1. rewrite decode_object. fold User_t.
      rewrite (decodeMembers_error decode _ "id" _ before after
                 (mkfield "id" true [0%nat] TInt false));
        [reflexivity | vm_compute; reflexivity |].
      intros sub. apply decode_out_of_range; [left; reflexivity | exact Hn].
    + unfold Unmarshal. change (typeOf Contact) with Contact_t.
      unfold Contact_t at 1. rewrite decode_object. fold Contact_t.
      rewrite (decodeMembers_error decode _ "user_id" _ before after
                 (mkfield "user_id" true [0%nat] TInt false));
        [reflexivity | vm_compute; reflexivity |].
      intros sub. apply decode_out_of_range; [left; reflexivity | exact Hn].
    + intros Message Query EM EQ. unfold Unmarshal.
      change (typeOf (Update Message Query)) with (@Update_t Message Query _ _).
      unfold Update_t at 1. rewrite decode_object.
      rewrite (decodeMembers_error decode _ "update_id" _ before after
                 (mkfield "update_id" true [0%nat] TInt64 false));
        [reflexivity | cbv -[typeOf]; reflexivity |].
      intros sub. apply decode_out_of_range; [right; reflexivity | exact Hn].
  - intros n Hn. rewrite <- (FormatInt_decimal n Hn).
    split; [|split; [|split]].
    + unfold Unmarshal.
      cbv -[strconv.FormatInt json.stringValue strconv.ParseInt].
      rewrite ParseInt_FormatInt by assumption. reflexivity.
    + unfold Unmarshal.
      cbv -[strconv.FormatInt json.stringValue strconv.ParseInt].
      rewrite ParseInt_FormatInt by assumption. reflexivity.
    + unfold Unmarshal.
      cbv -[strconv.FormatInt json.stringValue strconv.ParseInt].
      rewrite ParseInt_FormatInt by assumption. reflexivity.
    + intros Message Query EM EQ. unfold Unmarshal.
      change (typeOf (Update Message Query)) with (@Update_t Message Query _ _).
      cbv -[strconv.FormatInt json.stringValue strconv.ParseInt typeOf].
      rewrite ParseInt_FormatInt by assumption. reflexivity.
Qed.

Lemma decoded_identifier_in_range_witness :
  in_int64 (-1001234567890)
  /\ Unmarshal (A := Chat)
       (Object ([("type", Str "group")]
                  ++ ("id", Number (decimal_string 9223372036854775808))
                  :: [("title", Str "Team")])) = None
  /\ Unmarshal (Object [("id", Number (decimal_string 9223372036854775807))])
     = Some (mkChat 9223372036854775807 "" "" "" "" "").
Proof.
  split; [|split].
  - apply (proj1 decoded_identifier_in_range
             (Object [("id", Number "-1001234567890"); ("type", Str "group")])
             (mkChat (-1001234567890) "group" "" "" "" "")).
    reflexivity.
  - apply (proj1 (proj2 (proj2 (proj2 (proj2 decoded_identifier_in_range))))
             9223372036854775808 [("type", Str "group")] [("title", Str "Team")]).
    unfold in_int64, minInt64, maxInt64. lia.
  - apply (proj2 (proj2 (proj2 (proj2 (proj2 decoded_identifier_in_range))))
             9223372036854775807).
    unfold in_int64, minInt64, maxInt64. lia.
Defined.

(** X10. Decoding and addressing compose without a side condition: the
    token of a user read from the wire is the decimal string of its
    identifier, and the token of a chat read from the wire is "@" and its
    username for a channel and the decimal string of its identifier
    otherwise. *)
Theorem decoded_Destination (j : Value) :
  (forall u : User,
      Unmarshal j = Some u -> Destination u = decimal_string (User_ID u))
  /\ (forall c : Chat,
        Unmarshal j = Some c ->
        Destination c
        = if String.eqb (Chat_Type c) "channel"
          then "@" ++ Chat_Username c
          else decimal_string (Chat_ID c)).
Proof.
  split.
  - intros u H.
    change (Destination u) with (strconv.FormatInt (User_ID u) 10).
    apply FormatInt_decimal. exact (User_decoded_range _ _ H).
  - intros c H. rewrite Chat_Destination_eq.
    destruct (String.eqb (Chat_Type c) "channel"); [reflexivity|].
    apply FormatInt_decimal. exact (Chat_decoded_range _ _ H).
Qed.

Lemma decoded_Destination_witness :
  Destination (mkChat (-1001234567890) "supergroup" "Team" "" "" "team")
  = decimal_string (-1001234567890).
Proof.
  apply (proj2 (decoded_Destination
                  (Object [("id", Number "-1001234567890");
                           ("type", Str "supergroup");
                           ("title", Str "Team");
                           ("username", Str "team")]))
           (mkChat (-1001234567890) "supergroup" "Team" "" "" "team")).
  reflexivity.
Defined.

(** ** The envelope on the wire *)

Lemma decodeMembers_step (dec : Value -> GoType -> GoVal -> option GoVal)
  (fields : list field) (key : string) (j : Value)
  (ms : list (string * Value)) (cur : GoVal) (f : field) (sub sub' : GoVal) :
  findField fields key = Some f ->
  fieldByIndex cur (index f) = Some sub ->
  dec j (typ f) sub = Some sub' ->
  decodeMembers dec fields ((key, j) :: ms) cur
  = decodeMembers dec fields ms (setByIndex cur (index f) sub').
Proof.
  intros Hf Hs Hd. cbn [decodeMembers fst snd]. rewrite Hf, Hs, Hd.
  reflexivity.
Qed.

Lemma decode_string (s : string) (cur : GoVal) :
  utf8.ValidString s = true ->
  decode (encode TString (VString s)) TString cur = Some (VString s).
Proof.
  intros Hs. cbn. rewrite stringValue_valid by exact Hs. reflexivity.
Qed.

Lemma decode_int64 (n : Z) (cur : GoVal) :
  in_int64 n ->
  decode (encode TInt64 (VInt n)) TInt64 cur = Some (VInt n).
Proof.
  intros Hn.
  change (decode (encode TInt64 (VInt n)) TInt64 cur)
    with (match strconv.ParseInt (strconv.FormatInt n 10) with
          | Some n => Some (VInt n)
          | None => None
          end).
  rewrite ParseInt_FormatInt by exact Hn. reflexivity.
Qed.

(** A pointer to a struct: nil is written as [null] and read back as nil;
    otherwise the struct is written, and read back into a fresh one. *)
Lemma pointer_roundtrip (t : GoType) (p : option GoVal) :
  (forall x, p = Some x ->
     (exists sfs, t = TStruct sfs) /\ (exists vs, x = VStruct vs)
     /\ decode (encode t x) t (zero t) = Some x) ->
  decode (encode (TPtr t) (VPtr p)) (TPtr t) (VPtr None) = Some (VPtr p).
Proof.
  intros Hp. destruct p as [x|]; [|reflexivity].
  destruct (Hp x eq_refl) as ((sfs & ->) & (vs & ->) & Hd).
  change (encode (TPtr (TStruct sfs)) (VPtr (Some (VStruct vs))))
    with (encode (TStruct sfs) (VStruct vs)).
  unfold encode in *. cbn [encodeWithLeaves fst] in *.
  unfold structObject in *. cbn [decode indirect] in *.
  rewrite Hd. reflexivity.
Qed.

Lemma User_value_roundtrip (u : User) :
  User_valid u = true ->
  decode (encode User_t (toVal u)) User_t (zero User_t) = Some (toVal u).
Proof.
  destruct u as [id f l n]. unfold User_valid.
  cbn [User_ID User_FirstName User_LastName User_Username].
  intros H. split_valid H.
  cbv -[strconv.FormatInt json.stringValue strconv.ParseInt].
  rewrite ?ParseInt_FormatInt by assumption.
  rewrite ?stringValue_valid by assumption.
  reflexivity.
Qed.

Lemma ptrOf_ptrVal {A : Type} (f : A -> GoVal) (g : GoVal -> option A)
  (p : option A) :
  (forall a, p = Some a -> g (f a) = Some a) ->
  ptrOf g (ptrVal f p) = Some p.
Proof.
  intros H. destruct p as [a|]; [|reflexivity].
  unfold ptrVal, ptrOf. cbn [option_map]. rewrite (H a eq_refl).
  reflexivity.
Qed.

Section EnvelopeTrip.

Context {Message Query : Type} `{EM : Entity Message} `{EQ : Entity Query}.

Lemma faithful_pointer {A : Type} `{Entity A} (p : option A) :
  (forall a, p = Some a -> faithful a) ->
  decode (encode (TPtr (typeOf A)) (ptrVal toVal p)) (TPtr (typeOf A))
    (VPtr None)
  = Some (ptrVal toVal p).
Proof.
  intros Hp. apply pointer_roundtrip.
  intros x Hx. destruct p as [a|]; [|discriminate Hx].
  cbn [ptrVal option_map] in Hx. injection Hx as <-.
  destruct (Hp a eq_refl) as (Ht & Hv & Hd & _). auto.
Qed.

Lemma Callback_members (a b c d e : GoVal) :
  encode (@Callback_t Message EM) (VStruct [a; b; c; d; e])
  = Object [ ("id", encode TString a);
             ("from", encode (TPtr User_t) b);
             ("message", encode (TPtr (typeOf Message)) c);
             ("inline_message_id", encode TString d);
             ("data", encode TString e) ].
Proof. reflexivity. Qed.

Lemma Callback_value_roundtrip (c : Callback Message) :
  Callback_ok c ->
  decode (encode (@Callback_t Message EM) (toVal c))
    (@Callback_t Message EM) (zero (@Callback_t Message EM))
  = Some (toVal c).
Proof.
  destruct c as [id sender msg mid data].
  intros (Hid & Hmid & Hdata & Hsender & Hmsg).
  cbn [Callback_ID Callback_Sender Callback_Message Callback_MessageID
       Callback_Data] in *.
  cbn [toVal Callback_Entity Callback_ID Callback_Sender Callback_Message
       Callback_MessageID Callback_Data].
  rewrite Callback_members.
  unfold Callback_t at 1. rewrite decode_object.
  fold (@Callback_t Message EM).
  change (zero (@Callback_t Message EM))
    with (VStruct [VString ""; VPtr None; VPtr None; VString ""; VString ""]).
  erewrite decodeMembers_step;
    [| cbv -[typeOf]; reflexivity | reflexivity
     | cbn [typ]; apply decode_string; exact Hid ].
  erewrite decodeMembers_step;
    [| cbv -[typeOf]; reflexivity | reflexivity
     | cbn [typ];
       apply (pointer_roundtrip User_t (option_map toVal sender)) ].
  2:{ intros x Hx. destruct sender as [u|]; [|discriminate Hx].
      cbn [option_map] in Hx. injection Hx as <-.
      split; [eexists; reflexivity|]. split; [eexists; reflexivity|].
      apply User_value_roundtrip. apply Hsender. reflexivity. }
  erewrite decodeMembers_step;
    [| cbv -[typeOf]; reflexivity | reflexivity
     | cbn [typ]; apply (faithful_pointer msg); exact Hmsg ].
  erewrite decodeMembers_step;
    [| cbv -[typeOf]; reflexivity | reflexivity
     | cbn [typ]; apply decode_string; exact Hmid ].
  erewrite decodeMembers_step;
    [| cbv -[typeOf]; reflexivity | reflexivity
     | cbn [typ]; apply decode_string; exact Hdata ].
  reflexivity.
Qed.

Lemma Callback_ofVal (c : Callback Message) :
  Callback_ok c -> ofVal (toVal c) = Some c.
Proof.
  destruct c as [id sender msg mid data].
  intros (_ & _ & _ & _ & Hmsg). cbn [Callback_Message] in Hmsg.
  cbn [ofVal toVal Callback_Entity Callback_ID Callback_Sender
       Callback_Message Callback_MessageID Callback_Data].
  rewrite (ptrOf_ptrVal toVal ofVal sender)
    by (intros [i f l n] _; reflexivity).
  rewrite (ptrOf_ptrVal toVal ofVal msg)
    by (intros m Hm; exact (proj2 (proj2 (proj2 (Hmsg m Hm))))).
  reflexivity.
Qed.

Lemma Update_members (a b c d : GoVal) :
  encode (@Update_t Message Query EM EQ) (VStruct [a; b; c; d])
  = Object [ ("update_id", encode TInt64 a);
             ("message", encode (TPtr (typeOf Message)) b);
             ("callback_query", encode (TPtr (@Callback_t Message EM)) c);
             ("inline_query", encode (TPtr (typeOf Query)) d) ].
Proof. reflexivity. Qed.

Lemma Update_value_roundtrip (u : Update Message Query) :
  Update_ok u ->
  decode (encode (@Update_t Message Query EM EQ) (toVal u))
    (@Update_t Message Query EM EQ) (zero (@Update_t Message Query EM EQ))
  = Some (toVal u).
Proof.
  destruct u as [id payload callback query].
  intros (Hid & Hp & Hc & Hq).
  cbn [Update_ID Update_Payload Update_Callback Update_Query] in *.
  cbn [toVal Update_Entity Update_ID Update_Payload Update_Callback
       Update_Query].
  rewrite Update_members.
  unfold Update_t at 1. rewrite decode_object.
  fold (@Update_t Message Query EM EQ).
  change (zero (@Update_t Message Query EM EQ))
    with (VStruct [VInt 0; VPtr None; VPtr None; VPtr None]).
  erewrite decodeMembers_step;
    [| cbv -[typeOf]; reflexivity | reflexivity
     | cbn [typ]; apply decode_int64; exact Hid ].
  erewrite decodeMembers_step;
    [| cbv -[typeOf]; reflexivity | reflexivity
     | cbn [typ]; apply (faithful_pointer payload); exact Hp ].
  erewrite decodeMembers_step;
    [| cbv -[typeOf]; reflexivity | reflexivity
     | cbn [typ];
       apply (pointer_roundtrip (@Callback_t Message EM)
                (option_map toVal callback)) ].
  2:{ intros x Hx. destruct callback as [c|]; [|discriminate Hx].
      cbn [option_map] in Hx. injection Hx as <-.
      split; [eexists; reflexivity|]. split; [eexists; reflexivity|].
      apply Callback_value_roundtrip. apply Hc. reflexivity. }
  erewrite decodeMembers_step;
    [| cbv -[typeOf]; reflexivity | reflexivity
     | cbn [typ]; apply (faithful_pointer query); exact Hq ].
  reflexivity.
Qed.

Lemma Update_ofVal (u : Update Message Query) :
  Update_ok u -> ofVal (toVal u) = Some u.
Proof.
  destruct u as [id payload callback query].
  intros (_ & Hp & Hc & Hq).
  cbn [Update_Payload Update_Callback Update_Query] in *.
  cbn [ofVal toVal Update_Entity Update_ID Update_Payload Update_Callback
       Update_Query].
  rewrite (ptrOf_ptrVal toVal ofVal payload)
    by (intros m Hm; exact (proj2 (proj2 (proj2 (Hp m Hm))))).
  rewrite (ptrOf_ptrVal toVal ofVal callback)
    by (intros c Hc'; exact (Callback_ofVal c (Hc c Hc'))).
  rewrite (ptrOf_ptrVal toVal ofVal query)
    by (intros q Hq'; exact (proj2 (proj2 (proj2 (Hq q Hq'))))).
  reflexivity.
Qed.

End EnvelopeTrip.

(** X12. A callback and an update are encoded and decoded back to
    themselves, nil pointers as nil and the values behind the others in
    full, when their strings are valid UTF-8, the sender is a valid user
    and the messages and queries they point to are themselves carried
    faithfully. *)
Theorem envelope_roundtrip {Message Query : Type}
  {EM : Entity Message} {EQ : Entity Query} :
  (forall c : Callback Message,
      Callback_ok c -> Unmarshal (Marshal c) = Some c)
  /\ (forall u : Update Message Query,
        Update_ok u -> Unmarshal (Marshal u) = Some u).
Proof.
  split.
  - intros c Hc. unfold Unmarshal, Marshal.
    change (typeOf (Callback Message)) with (@Callback_t Message EM).
    rewrite (Callback_value_roundtrip c Hc).
    exact (Callback_ofVal c Hc).
  - intros u Hu. unfold Unmarshal, Marshal.
    change (typeOf (Update Message Query))
      with (@Update_t Message Query EM EQ).
    rewrite (Update_value_roundtrip u Hu).
    exact (Update_ofVal u Hu).
Qed.

Lemma envelope_roundtrip_witness :
  Unmarshal
    (Marshal
       (mkUpdate (Message := Chat) (Query := User) 42
          (Some (mkChat 7 "private" "" "Ada" "" "ada"))
          (Some (mkCallback "abc123" (Some (mkUser 7 "Ada" "" "ada")) None ""
                   "vote:1"))
          None))
  = Some
      (mkUpdate (Message := Chat) (Query := User) 42
         (Some (mkChat 7 "private" "" "Ada" "" "ada"))
         (Some (mkCallback "abc123" (Some (mkUser 7 "Ada" "" "ada")) None ""
                  "vote:1"))
         None).
Proof.
  apply (proj2 (envelope_roundtrip (Message := Chat) (Query := User))).
  split; [|split; [|split]].
  - unfold in_int64, minInt64, maxInt64. cbn [Update_ID]. lia.
  - cbn [Update_Payload]. intros m [= <-].
    split; [eexists; reflexivity|]. split; [eexists; reflexivity|].
    split; reflexivity.
  - cbn [Update_Callback]. intros c [= <-].
    split; [reflexivity|]. split; [reflexivity|]. split; [reflexivity|].
    split.
    + cbn [Callback_Sender]. intros u [= <-]. reflexivity.
    + cbn [Callback_Message]. intros m Hm. discriminate Hm.
  - cbn [Update_Query]. intros q Hq. discriminate Hq.
Defined.

(** ** Keys the struct does not declare *)

Lemma decodeMembers_skip (dec : Value -> GoType -> GoVal -> option GoVal)
  (fields : list field) (key : string) (j : Value)
  (before after : list (string * Value)) :
  findField fields key = None ->
  forall cur,
    decodeMembers dec fields (before ++ (key, j) :: after) cur
    = decodeMembers dec fields (before ++ after) cur.
Proof.
  intros Hk. induction before as [|[k v] before IH]; intros cur.
  - cbn [app decodeMembers fst]. rewrite Hk. reflexivity.
  - cbn [app decodeMembers fst snd].
    destruct (findField fields k) as [f|]; [|apply IH].
    destruct (fieldByIndex cur (index f)) as [sub|]; [|reflexivity].
    destruct (dec v (typ f) sub) as [sub'|]; [|reflexivity].
    apply IH.
Qed.

Lemma Chat_fields :
  typeFields Chat_t
  = [ mkfield "id" true [0%nat] TInt64 false;
      mkfield "type" true [1%nat] TString false;
      mkfield "title" true [2%nat] TString false;
      mkfield "first_name" true [3%nat] TString false;
      mkfield "last_name" true [4%nat] TString false;
      mkfield "username" true [5%nat] TString false ].
Proof. vm_compute. reflexivity. Qed.

Lemma Chat_findField (key : string) :
  Chat_key key = false -> findField (typeFields Chat_t) key = None.
Proof.
  unfold Chat_key, Chat_keys. cbn [existsb]. intros H.
  repeat (apply orb_false_iff in H; destruct H as [? H]).
  rewrite Chat_fields. unfold findField. cbn [find name].
  change (foldName "id") with "ID".
  change (foldName "type") with "TYPE".
  change (foldName "title") with "TITLE".
  change (foldName "first_name") with "FIRST_NAME".
  change (foldName "last_name") with "LAST_NAME".
  change (foldName "username") with "USERNAME".
  repeat match goal with
         | |- context [String.eqb ?a key] =>
             destruct (String.eqb_spec a key) as [<- | _];
             [exfalso;
              repeat match goal with
                     | E : String.eqb (foldName _) _ = false |- _ =>
                         try (vm_compute in E; discriminate E); clear E
                     end|]
         end.
  repeat match goal with
         | E : String.eqb (foldName key) ?a = false |- _ =>
             rewrite (String.eqb_sym a (foldName key)), E; clear E
         end.
  reflexivity.
Qed.

(** A key that is a name of the chat once folded selects a field. *)
Lemma Chat_key_selects (key : string) :
  Chat_key key = true -> findField (typeFields Chat_t) key <> None.
Proof.
  unfold Chat_key, Chat_keys. cbn [existsb]. intros H.
  rewrite Chat_fields. unfold findField.
  destruct (find (fun f => String.eqb (name f) key) _); [discriminate|].
  repeat (apply orb_true_iff in H; destruct H as [H | H]);
    try (apply String.eqb_eq in H; rewrite H; vm_compute; discriminate).
  discriminate H.
Qed.

(** The folding is the one of the decoder: the long s folds to S and the
    Kelvin sign to K, so that a key written with one of them selects the
    field, as a key in another case does. *)
Example folded_keys :
  foldName long_s_key = "USERNAME"
  /\ foldName kelvin_key = "CALLBACK_QUERY"
  /\ Chat_key long_s_key = true
  /\ Chat_key "Title" = true
  /\ Chat_key "photo" = false
  /\ Unmarshal (A := Chat) (Object [(long_s_key, Str "durov")])
     = Some (mkChat 0 "" "" "" "" "durov")
  /\ Unmarshal (A := Update Chat User)
       (Object [(kelvin_key, Object [("id", Str "abc123")])])
     = Some (mkUpdate 0 None (Some (mkCallback "abc123" None None "" "")) None).
Proof. vm_compute. repeat split. Qed.

(** X11. A member whose key matches no field of a chat, not even with the
    case folded as the decoder folds it (the letters of ASCII, and the long
    s and the Kelvin sign, which fold to s and k), is skipped wherever it
    stands among the members: what is decoded is what would be without
    it. *)
Theorem Chat_unknown_key_skipped (key : string) (j : Value)
  (before after : list (string * Value)) :
  Chat_key key = false ->
  Unmarshal (A := Chat) (Object (before ++ (key, j) :: after))
  = Unmarshal (A := Chat) (Object (before ++ after)).
Proof.
  intros Hk. unfold Unmarshal.
  change (typeOf Chat) with Chat_t. unfold Chat_t at 1 3.
  rewrite !decode_object. fold Chat_t.
  rewrite (decodeMembers_skip decode _ key j before after
             (Chat_findField key Hk)).
  reflexivity.
Qed.

Lemma Chat_unknown_key_skipped_witness :
  Unmarshal (A := Chat)
    (Object ([("id", Number "42")]
               ++ ("photo", Object [("small_file_id", Str "AQAD")])
               :: [("type", Str "private")]))
  = Unmarshal (A := Chat)
      (Object ([("id", Number "42")] ++ [("type", Str "private")])).
Proof.
  apply Chat_unknown_key_skipped. reflexivity.
Defined.

(** ** Inbound envelopes *)

Section Inbound.

Context {Message Query : Type} {EM : Entity Message} {EQ : Entity Query}.

Lemma faithful_member {A : Type} `{Entity A} (a : A) :
  faithful a ->
  decode (Marshal a) (TPtr (typeOf A)) (VPtr None)
  = Some (VPtr (Some (toVal a))).
Proof.
  intros Ha.
  exact (faithful_pointer (Some a) (fun a' E =>
           match E in _ = o return
                 match o with Some x => faithful x | None => True end
           with eq_refl => Ha end)).
Qed.

Lemma Callback_member (c : Callback Message) :
  Callback_ok c ->
  decode (Marshal c) (TPtr (@Callback_t Message EM)) (VPtr None)
  = Some (VPtr (Some (toVal c))).
Proof.
  intros Hc.
  apply (pointer_roundtrip (@Callback_t Message EM) (Some (toVal c))).
  intros x [= <-].
  split; [eexists; reflexivity|]. split; [eexists; reflexivity|].
  apply Callback_value_roundtrip. exact Hc.
Qed.

Lemma envelope_value (u : Update Message Query) :
  Update_ok u ->
  decode (envelope u) (@Update_t Message Query EM EQ)
    (zero (@Update_t Message Query EM EQ))
  = Some (toVal u).
Proof.
  destruct u as [id payload callback query].
  intros (Hid & Hp & Hc & Hq).
  cbn [Update_ID Update_Payload Update_Callback Update_Query] in *.
  unfold envelope.
  cbn [Update_ID Update_Payload Update_Callback Update_Query].
  unfold Update_t at 1. rewrite decode_object.
  fold (@Update_t Message Query EM EQ).
  change (zero (@Update_t Message Query EM EQ))
    with (VStruct [VInt 0; VPtr None; VPtr None; VPtr None]).
  erewrite decodeMembers_step;
    [| cbv -[typeOf]; reflexivity | reflexivity
     | cbn [typ]; apply (decode_int64 id); exact Hid ].
  destruct payload as [m|], callback as [c|], query as [q|];
    cbn [present app];
    repeat (erewrite decodeMembers_step;
            [| cbv -[typeOf]; reflexivity | reflexivity
             | cbn [typ];
               first [ apply faithful_member; first [apply Hp | apply Hq];
                       reflexivity
                     | apply Callback_member; apply Hc; reflexivity ] ]);
    reflexivity.
Qed.

End Inbound.

(** X13. An inbound envelope, which carries the identifier of the update
    and only the payloads it has, is decoded to that update: each payload
    present is behind its pointer and each absent one is nil. *)
Theorem envelope_decoded {Message Query : Type}
  {EM : Entity Message} {EQ : Entity Query} (u : Update Message Query) :
  Update_ok u -> Unmarshal (envelope u) = Some u.
Proof.
  intros Hu. unfold Unmarshal.
  change (typeOf (Update Message Query)) with (@Update_t Message Query EM EQ).
  rewrite (envelope_value u Hu).
  exact (Update_ofVal u Hu).
Qed.

Lemma envelope_decoded_witness :
  Unmarshal (A := Update Chat User)
    (Object [ ("update_id", Number "42");
              ("callback_query",
               Object [ ("id", Str "abc123");
                        ("from",
                         Object [ ("id", Number "7");
                                  ("first_name", Str "Ada");
                                  ("last_name", Str "");
                                  ("username", Str "ada") ]);
                        ("message", Null);
                        ("inline_message_id", Str "");
                        ("data", Str "vote:1") ]) ])
  = Some
      (mkUpdate 42 None
         (Some (mkCallback "abc123" (Some (mkUser 7 "Ada" "" "ada")) None ""
                  "vote:1"))
         None).
Proof.
  apply (envelope_decoded (Message := Chat) (Query := User)
           (mkUpdate 42 None
              (Some (mkCallback "abc123" (Some (mkUser 7 "Ada" "" "ada"))
                       None "" "vote:1"))
              None)).
  split; [|split; [|split]].
  - unfold in_int64, minInt64, maxInt64. cbn [Update_ID]. lia.
  - cbn [Update_Payload]. intros m Hm. discriminate Hm.
  - cbn [Update_Callback]. intros c [= <-].
    split; [reflexivity|]. split; [reflexivity|]. split; [reflexivity|].
    split.
    + cbn [Callback_Sender]. intros u [= <-]. reflexivity.
    + cbn [Callback_Message]. intros m Hm. discriminate Hm.
  - cbn [Update_Query]. intros q Hq. discriminate Hq.
Defined.

(** ** Nested values *)

Lemma row_encoding (row : option (list InlineButton)) :
  encode (TSlice InlineButton_t) (sliceVal toVal row) = rowValue row.
Proof.
  destruct row as [bs|]; [|reflexivity].
  unfold sliceVal, rowValue. cbn [option_map].
  rewrite encode_slice, map_map. reflexivity.
Qed.

(** X14. Nested values are written in place and in order: a chat member
    holds the object of its user under the key user, and an inline keyboard
    is the array of its rows, each the array of the objects of its buttons
    (a nil row is [null]); a keyboard without rows is not written at
    all. *)
Theorem nested_members (m : ChatMember)
  (rows : option (list (option (list InlineButton)))) :
  Marshal m
  = Object [ ("user", Marshal (ChatMember_User m));
             ("status", Str (stringValue (ChatMember_Status m))) ]
  /\ Marshal (mkInlineKeyboardMarkup rows)
     = match rows with
       | None | Some [] => Object []
       | Some rows => Object [("inline_keyboard", Array (map rowValue rows))]
       end.
Proof.
  split.
  - destruct m as [[id f l n] st]. reflexivity.
  - destruct rows as [[|r rs]|]; [reflexivity| |reflexivity].
    unfold Marshal.
    change (encode (typeOf InlineKeyboardMarkup)
              (toVal (mkInlineKeyboardMarkup (Some (r :: rs)))))
      with (Object [("inline_keyboard",
                     encode (TSlice (TSlice InlineButton_t))
                       (VSlice (Some (map (sliceVal toVal) (r :: rs)))))]).
    rewrite encode_slice, map_map.
    do 4 f_equal. apply map_ext. exact row_encoding.
Qed.

(** ** Exactly which chats and users survive the wire *)

(** X15. Valid UTF-8 is exactly the condition under which a chat or a user
    is read back equal to what was written: with it the round trip is the
    identity, and without it some string comes back changed. *)
Theorem roundtrip_iff_valid (u : User) (c : Chat) :
  in_int64 (User_ID u) -> in_int64 (Chat_ID c) ->
  (Unmarshal (Marshal u) = Some u <-> User_valid u = true)
  /\ (Unmarshal (Marshal c) = Some c <-> Chat_valid c = true).
Proof.
  intros Hu Hc. split; split.
  - rewrite (User_trip u Hu). intros [= E].
    rewrite <- E. unfold User_valid, User_read.
    cbn [User_ID User_FirstName User_LastName User_Username].
    rewrite (in_int64b_complete _ Hu), !stringValue_is_valid. reflexivity.
  - apply User_roundtrip.
  - rewrite (Chat_trip c Hc). intros [= E].
    rewrite <- E. unfold Chat_valid, Chat_read.
    cbn [Chat_ID Chat_Type Chat_Title Chat_FirstName Chat_LastName
         Chat_Username].
    rewrite (in_int64b_complete _ Hc), !stringValue_is_valid. reflexivity.
  - apply Chat_roundtrip.
Qed.

Lemma roundtrip_iff_valid_witness :
  Unmarshal (Marshal latin1_chat) <> Some latin1_chat.
Proof.
  intros E.
  destruct (roundtrip_iff_valid (mkUser 1 "" "" "") latin1_chat) as [_ [H _]].
  - unfold in_int64, minInt64, maxInt64. cbn [User_ID]. lia.
  - unfold in_int64, minInt64, maxInt64. cbn [Chat_ID latin1_chat]. lia.
  - specialize (H E). vm_compute in H. discriminate H.
Defined.

(** ** One capability, two implementations *)

(** X16. A user and a chat with the same identifier are the same
    destination, unless the chat is a channel: replying to the private
    chat of a user and to the user address the same token. *)
Theorem User_Chat_same_Destination (u : User) (c : Chat) :
  Chat_Type c <> "channel" -> Chat_ID c = User_ID u ->
  Destination c = Destination u.
Proof.
  intros Hk Hid. rewrite Chat_Destination_eq.
  apply String.eqb_neq in Hk. rewrite Hk, Hid. reflexivity.
Qed.

Lemma User_Chat_same_Destination_witness :
  Destination (mkChat 42 "private" "" "Ada" "" "ada")
  = Destination (mkUser 42 "Ada" "" "ada").
Proof.
  apply User_Chat_same_Destination; [discriminate | reflexivity].
Defined.

(* ================================================================== *)
(** * Part V: the wire format of every entity *)
(* ================================================================== *)

(** ** The media entities *)

Ltac split_valids :=
  repeat match goal with
         | H : (_ && _) = true |- _ =>
             apply andb_true_iff in H; destruct H
         end;
  repeat match goal with
         | Hi : in_int64b _ = true |- _ => apply in_int64b_spec in Hi
         end.

Lemma Photo_roundtrip (p : Photo) :
  Photo_valid p = true -> Unmarshal (Marshal p) = Some p.
Proof.
  destruct p as [[fid fsz] w h c]. unfold Photo_valid, File_valid.
  cbn [Photo_File Photo_Width Photo_Height Photo_Caption File_FileID
       File_FileSize].
  intros H. split_valids. destruct c; roundtrip.
Qed.

Lemma Audio_roundtrip (a : Audio) :
  Audio_valid a = true -> Unmarshal (Marshal a) = Some a.
Proof.
  destruct a as [[fid fsz] d t p m c]. unfold Audio_valid, File_valid.
  cbn [Audio_File Audio_Duration Audio_Title Audio_Performer Audio_Mime
       Audio_Caption File_FileID File_FileSize].
  intros H. split_valids. destruct c; roundtrip.
Qed.

Lemma Voice_roundtrip (v : Voice) :
  Voice_valid v = true -> Unmarshal (Marshal v) = Some v.
Proof.
  destruct v as [[fid fsz] d m c]. unfold Voice_valid, File_valid.
  cbn [Voice_File Voice_Duration Voice_Mime Voice_Caption File_FileID
       File_FileSize].
  intros H. split_valids. destruct c; roundtrip.
Qed.

Lemma Document_roundtrip (d : Document) :
  Document_valid d = true -> Unmarshal (Marshal d) = Some d.
Proof.
  destruct d as [[fid fsz] [[pid psz] w h pc] n m c].
  unfold Document_valid, Photo_valid, File_valid.
  cbn [Document_File Document_Preview Document_FileName Document_Mime
       Document_Caption Photo_File Photo_Width Photo_Height Photo_Caption
       File_FileID File_FileSize].
  intros H. split_valids. destruct c, pc; roundtrip.
Qed.

Lemma Sticker_roundtrip (s : Sticker) :
  Sticker_valid s = true -> Unmarshal (Marshal s) = Some s.
Proof.
  destruct s as [[fid fsz] w h [[pid psz] pw ph pc] e].
  unfold Sticker_valid, Photo_valid, File_valid.
  cbn [Sticker_File Sticker_Width Sticker_Height Sticker_Thumbnail
       Sticker_Emoji Photo_File Photo_Width Photo_Height Photo_Caption
       File_FileID File_FileSize].
  intros H. split_valids. destruct pc; roundtrip.
Qed.

Lemma VideoNote_roundtrip (n : VideoNote) :
  VideoNote_valid n = true -> Unmarshal (Marshal n) = Some n.
Proof.
  destruct n as [[fid fsz] d [[pid psz] pw ph pc]].
  unfold VideoNote_valid, Photo_valid, File_valid.
  cbn [VideoNote_File VideoNote_Duration VideoNote_Thumbnail
       Photo_File Photo_Width Photo_Height Photo_Caption
       File_FileID File_FileSize].
  intros H. split_valids. destruct pc; roundtrip.
Qed.

Lemma Video_roundtrip (v : Video) :
  Video_valid v = true -> Unmarshal (Marshal v) = Some (Video_read v).
Proof.
  destruct v as [[[fid fsz] d t p m ac] w h c [[pid psz] pw ph pc]].
  unfold Video_valid, Video_read, Photo_valid, File_valid.
  cbn [Video_Audio Video_Width Video_Height Video_Caption Video_Thumbnail
       Audio_File Audio_Duration Audio_Title Audio_Performer Audio_Mime
       Audio_Caption Photo_File Photo_Width Photo_Height Photo_Caption
       File_FileID File_FileSize].
  intros H. split_valids. destruct c, pc; roundtrip.
Qed.

Lemma Photo_value_roundtrip (p : Photo) :
  Photo_valid p = true ->
  decode (encode Photo_t (toVal p)) Photo_t (zero Photo_t) = Some (toVal p).
Proof.
  destruct p as [[fid fsz] w h c]. unfold Photo_valid, File_valid.
  cbn [Photo_File Photo_Width Photo_Height Photo_Caption File_FileID
       File_FileSize].
  intros H. split_valids.
  destruct c;
    cbv -[strconv.FormatInt json.stringValue strconv.ParseInt];
    rewrite ?ParseInt_FormatInt by assumption;
    rewrite ?stringValue_valid by assumption; reflexivity.
Qed.

Lemma Photo_ofVal_toVal (p : Photo) : ofVal (toVal p) = Some p.
Proof. destruct p as [[fid fsz] w h c]. reflexivity. Qed.

(** A slice of entities that are each read back is read back whole. *)
Lemma entities_roundtrip {A : Type} (t : GoType) (f : A -> GoVal)
  (valid : A -> bool) (l : option (list A)) :
  (forall a, valid a = true -> decode (encode t (f a)) t (zero t) = Some (f a)) ->
  slice_valid valid l = true ->
  decode (encode (TSlice t) (sliceVal f l)) (TSlice t) (VSlice None)
  = Some (sliceVal f l).
Proof.
  intros Ha Hv. apply slice_roundtrip.
  intros xs x Hxs Hx.
  destruct l as [l|]; [|discriminate Hxs].
  cbn [option_map slice_valid] in Hxs, Hv. injection Hxs as <-.
  apply in_map_iff in Hx. destruct Hx as (a & <- & Hin).
  apply Ha. rewrite forallb_forall in Hv. apply Hv. exact Hin.
Qed.

Lemma UserProfilePhotos_members (a b : GoVal) :
  encode UserProfilePhotos_t (VStruct [a; b])
  = Object [ ("total_count", encode TInt a);
             ("photos", encode (TSlice (TSlice Photo_t)) b) ].
Proof. reflexivity. Qed.

Lemma decode_int (n : Z) (cur : GoVal) :
  in_int64 n -> decode (encode TInt (VInt n)) TInt cur = Some (VInt n).
Proof.
  intros Hn.
  change (decode (encode TInt (VInt n)) TInt cur)
    with (match strconv.ParseInt (strconv.FormatInt n 10) with
          | Some n => Some (VInt n)
          | None => None
          end).
  rewrite ParseInt_FormatInt by exact Hn. reflexivity.
Qed.

Lemma UserProfilePhotos_roundtrip (p : UserProfilePhotos) :
  UserProfilePhotos_valid p = true -> Unmarshal (Marshal p) = Some p.
Proof.
  destruct p as [n photos]. unfold UserProfilePhotos_valid.
  cbn [UserProfilePhotos_Count UserProfilePhotos_Photos].
  intros H. apply andb_true_iff in H. destruct H as [Hn Hp].
  apply in_int64b_spec in Hn.
  unfold Unmarshal, Marshal.
  change (typeOf UserProfilePhotos) with UserProfilePhotos_t.
  cbn [toVal UserProfilePhotos_Entity UserProfilePhotos_Count
       UserProfilePhotos_Photos].
  rewrite UserProfilePhotos_members.
  unfold UserProfilePhotos_t at 1. rewrite decode_object.
  fold UserProfilePhotos_t.
  change (zero UserProfilePhotos_t) with (VStruct [VInt 0; VSlice None]).
  erewrite decodeMembers_step;
    [| vm_compute; reflexivity | reflexivity
     | cbn [typ]; apply decode_int; exact Hn ].
  erewrite decodeMembers_step;
    [| vm_compute; reflexivity | reflexivity
     | cbn [typ];
       apply (entities_roundtrip (TSlice Photo_t) (sliceVal Photo_toVal)
                (slice_valid Photo_valid) photos); [|exact Hp] ].
  2:{ intros row Hrow.
      apply (entities_roundtrip Photo_t Photo_toVal Photo_valid row);
        [|exact Hrow].
      exact Photo_value_roundtrip. }
  cbn [decodeMembers setByIndex index nth_error setNth].
  cbn [ofVal UserProfilePhotos_Entity].
  rewrite sliceOf_sliceVal; [reflexivity|].
  intros row. apply sliceOf_sliceVal. exact Photo_ofVal_toVal.
Qed.

(** ** Every entity *)


